(** * hpp-manipulation-corba: session and protocol layer

    A shallow embedding of the server entry point
    ([hpp-manipulation-corba.cc]), of the robot interface
    ([robot.impl.cc]) and of the [Problem] interface declared in
    [problem.idl], together with the properties of the written
    specification that concern them.

    Conventions.
    - A [double] is modelled by a real number: none of the code below
      computes on the numbers it receives, it only stores them and reads
      them back.
    - Objects held through shared pointers (the device of a session, the
      sessions of the registry) are threaded explicitly: a function that
      mutates such an object returns the new value, and the caller writes
      it back where the pointer lives.
    - A C++ exception is a value of type [exn]; an operation that can
      raise returns a [result]. *)

From Stdlib Require Import Reals Lra ZArith String List.
From stdpp Require Import base gmap strings list.

Local Open Scope string_scope.

(** ** Exceptions *)

(** [StdException what] stands for anything derived from
    [std::exception] that a collaborator library may throw; [HppError]
    is the remote fault [hpp::Error] declared in the IDL, the only fault
    a client ever sees. *)
Inductive exn : Type :=
| StdException (what : string)
| HppError (msg : string).

Inductive result (A : Type) : Type :=
| Return (a : A)
| Raise (e : exn).

Arguments Return {A} a.
Arguments Raise {A} e.

(** The wrapper found around every operation body:
    [try { ... } catch (const std::exception& exc) { throw Error (exc.what ()); }] *)
Definition catch_std {A : Type} (r : result A) : result A :=
  match r with
  | Raise (StdException what) => Raise (HppError what)
  | _ => r
  end.

Definition is_Return {A : Type} (r : result A) : bool :=
  match r with Return _ => true | Raise _ => false end.

(** ** Transform wire codec: the fcl types *)

Module Fcl.

(** [fcl::Vec3f (x, y, z)], indexed by [operator[]]. *)
Record Vec3f : Type := mkVec3f { v0 : R; v1 : R; v2 : R }.

(** Modelled from the spec: the declaration of [fcl::Quaternion3f] is
    not part of the sources.  The four-argument constructor stores its
    arguments in order and [operator[]] reads them back by position;
    the names of the four positions, x y z w, are the ones the
    specification gives for the wire format. *)
Record Quaternion3f : Type := mkQuaternion3f { qx : R; qy : R; qz : R; qw : R }.

Definition Quaternion3f_at (q : Quaternion3f) (i : nat) : R :=
  match i with
  | 0 => qx q
  | 1 => qy q
  | 2 => qz q
  | _ => qw q
  end.

Definition Vec3f_at (v : Vec3f) (i : nat) : R :=
  match i with
  | 0 => v0 v
  | 1 => v1 v
  | _ => v2 v
  end.

(** [fcl::Transform3f (q, v)] keeps the quaternion and the translation
    it is given. *)
Record Transform3f : Type := mkTransform3f
  { getQuatRotation : Quaternion3f; getTranslation : Vec3f }.

(** [t.setIdentity ()] *)
Definition setIdentity : Transform3f :=
  mkTransform3f (mkQuaternion3f 0 0 0 1) (mkVec3f 0 0 0).

End Fcl.
Export Fcl.

(** [hpp::Transform_], an array of seven doubles. *)
Record Transform_ : Type := mkTransform_
  { e0 : R; e1 : R; e2 : R; e3 : R; e4 : R; e5 : R; e6 : R }.

(** The decoding every operation of the robot interface performs:
    [[
      fcl::Quaternion3f q (p [3], p [4], p [5], p [6]);
      fcl::Vec3f v (p [0], p [1], p [2]);
      ... Transform3f (q, v) ...
    ]] *)
Definition decodeTransform (p : Transform_) : Transform3f :=
  let q := mkQuaternion3f (e3 p) (e4 p) (e5 p) (e6 p) in
  let v := mkVec3f (e0 p) (e1 p) (e2 p) in
  mkTransform3f q v.

(** The encoding at the end of [getRootJointPosition]:
    [res [0..2] = T.getTranslation () [0..2]],
    [res [3..6] = T.getQuatRotation () [0..3]]. *)
Definition encodeTransform (T : Transform3f) : Transform_ :=
  mkTransform_
    (Vec3f_at (getTranslation T) 0)
    (Vec3f_at (getTranslation T) 1)
    (Vec3f_at (getTranslation T) 2)
    (Quaternion3f_at (getQuatRotation T) 0)
    (Quaternion3f_at (getQuatRotation T) 1)
    (Quaternion3f_at (getQuatRotation T) 2)
    (Quaternion3f_at (getQuatRotation T) 3).


(** Two wire transforms equal up to the floating tolerance 1e-9 on each
    component. *)
Definition withinTolerance (p q : Transform_) : Prop :=
  (Rabs (e0 q - e0 p) <= 1e-9 /\ Rabs (e1 q - e1 p) <= 1e-9 /\
   Rabs (e2 q - e2 p) <= 1e-9 /\ Rabs (e3 q - e3 p) <= 1e-9 /\
   Rabs (e4 q - e4 p) <= 1e-9 /\ Rabs (e5 q - e5 p) <= 1e-9 /\
   Rabs (e6 q - e6 p) <= 1e-9)%R.

(** ** The device: joint tree, handles, grippers *)

Inductive JointKind : Type :=
| JointAnchor
| JointSO3
| JointRotation
| JointTranslation.

(** A joint of the kinematic tree.  [linkedBody] is the name of the body
    the joint carries, if any. *)
#[warnings="-register-all"] Inductive Joint : Type :=
| mkJoint (name : string) (kind : JointKind) (linkedBody : option string)
          (positionInParentFrame : Transform3f) (childJoints : list Joint).

Definition Joint_name (j : Joint) : string :=
  match j with mkJoint n _ _ _ _ => n end.
Definition Joint_kind (j : Joint) : JointKind :=
  match j with mkJoint _ k _ _ _ => k end.
Definition Joint_linkedBody (j : Joint) : option string :=
  match j with mkJoint _ _ b _ _ => b end.
Definition Joint_positionInParentFrame (j : Joint) : Transform3f :=
  match j with mkJoint _ _ _ T _ => T end.
Definition Joint_childJoints (j : Joint) : list Joint :=
  match j with mkJoint _ _ _ _ cs => cs end.

(** [j->name (n)] and [j->positionInParentFrame (T)] *)
Definition Joint_set_name (n : string) (j : Joint) : Joint :=
  match j with mkJoint _ k b T cs => mkJoint n k b T cs end.
Definition Joint_set_positionInParentFrame (T : Transform3f) (j : Joint) : Joint :=
  match j with mkJoint n k b _ cs => mkJoint n k b T cs end.

(** [model::ObjectFactory::createJointAnchor (t)] *)
Definition createJointAnchor (t : Transform3f) : Joint :=
  mkJoint "" JointAnchor None t [].

(** A [JointPtr_t] that is not null designates a joint by its path from
    the root of the tree (the list of child indices); a possibly null
    pointer is an [option JointPtr]. *)
Definition JointPtr : Type := list nat.

Inductive HandleKind : Type :=
| PlainHandle
| AxialHandle.

Record Handle : Type := mkHandle
  { Handle_name : string;
    Handle_localPosition : Transform3f;
    Handle_joint : JointPtr;
    Handle_kind : HandleKind }.

(** [Handle::create (name, T, joint)] and [AxialHandle::create (name, T, joint)] *)
Definition Handle_create (n : string) (T : Transform3f) (j : JointPtr) : Handle :=
  mkHandle n T j PlainHandle.
Definition AxialHandle_create (n : string) (T : Transform3f) (j : JointPtr) : Handle :=
  mkHandle n T j AxialHandle.

(** [jointInCollision] is a vector of joint pointers; nothing in
    [model::Gripper::create] is known to reject a null entry. *)
Record Gripper : Type := mkGripper
  { Gripper_name : string;
    Gripper_joint : JointPtr;
    Gripper_objectPositionInJoint : Transform3f;
    Gripper_jointInCollision : list (option JointPtr) }.

Definition Gripper_create (n : string) (j : JointPtr) (T : Transform3f)
    (jointInCollision : list (option JointPtr)) : Gripper :=
  mkGripper n j T jointInCollision.

(** [manipulation::Device]: [Device::create (name)] followed by
    [rootJoint (rj)]; the containers of handles and grippers are keyed by
    name and [add] overwrites. *)
Record Device : Type := mkDevice
  { Device_name : string;
    rootJoint : Joint;
    handles : gmap string Handle;
    grippers : gmap string Gripper }.

Definition Device_create (n : string) (rj : Joint) : Device :=
  mkDevice n rj ∅ ∅.

Definition Device_set_rootJoint (rj : Joint) (r : Device) : Device :=
  mkDevice (Device_name r) rj (handles r) (grippers r).

Definition Device_add_handle (n : string) (h : Handle) (r : Device) : Device :=
  mkDevice (Device_name r) (rootJoint r) (<[n := h]> (handles r)) (grippers r).

Definition Device_add_gripper (n : string) (g : Gripper) (r : Device) : Device :=
  mkDevice (Device_name r) (rootJoint r) (handles r) (<[n := g]> (grippers r)).

(** The search behind [Device::getJointByBodyName]: the joints are
    visited from the root, a joint before its children, children in
    order, and the first joint whose linked body has the name is found;
    [None] when no joint carries the body.  What the library hands back
    on such a miss is not in the sources.  The operations below read
    [None] as the null pointer [getJointByBodyNameOrThrow] tests for;
    [Device_getJointByBodyName], further down, makes the behaviour on a
    miss a parameter. *)
Fixpoint Joint_findBody (n : string) (j : Joint) : option JointPtr :=
  match j with
  | mkJoint _ _ b _ cs =>
      if bool_decide (b = Some n) then Some []
      else
        (fix scan (i : nat) (l : list Joint) {struct l} : option JointPtr :=
           match l with
           | [] => None
           | c :: l' =>
               match Joint_findBody n c with
               | Some path => Some (i :: path)
               | None => scan (S i) l'
               end
           end) 0 cs
  end.

Definition getJointByBodyName (r : Device) (n : string) : option JointPtr :=
  Joint_findBody n (rootJoint r).

(** ** The planning session *)

Definition ID : Type := Z.
Definition Configuration : Type := list R.

Record CollisionObject : Type := mkCollisionObject
  { CollisionObject_geometry : string;
    CollisionObject_transform : Transform3f;
    CollisionObject_name : string }.

(** [model::CollisionObject::create (geometry, transform, name)] *)
Definition CollisionObject_create (g : string) (T : Transform3f) (n : string)
    : CollisionObject :=
  mkCollisionObject g T n.

Definition TriangleList : Type := list (Vec3f * Vec3f * Vec3f).

(** A numerical constraint between a gripper and a handle: [mask] tells,
    for the three translations and the three rotations in the handle
    frame, which ones the constraint fixes. *)
Record Constraint : Type := mkConstraint
  { Constraint_gripper : string;
    Constraint_handle : string;
    Constraint_mask : list bool }.

(** A path stored in the session: the edge whose method built it, its end
    configurations, and whether it went through the path projector. *)
Record Path : Type := mkPath
  { Path_edge : ID;
    Path_initial : Configuration;
    Path_end : Configuration;
    Path_projected : bool }.

(** What [setConstraints] activated last. *)
Inductive Selection : Type :=
| NodeConstraints (id : ID)
| EdgePathConstraints (id : ID)
| EdgeTargetConstraints (id : ID).

(** [ProblemSolver]: the state of one named problem.  [resetCount] is a
    ghost field counting the calls to [resetProblem]. *)
Record ProblemSolver : Type := mkProblemSolver
  { robot : option Device;
    obstacles : list CollisionObject;
    contactSurfaces : gmap string TriangleList;
    numericalConstraints : gmap string Constraint;
    paths : list Path;
    activeConstraints : option Selection;
    targetState : option ID;
    resetCount : nat }.

(** [ProblemSolver::create ()], [new ProblemSolver ()] *)
Definition ProblemSolver_create : ProblemSolver :=
  mkProblemSolver None [] ∅ ∅ [] None None 0.

(** [p->robot (r)] *)
Definition set_robot (r : Device) (p : ProblemSolver) : ProblemSolver :=
  mkProblemSolver (Some r) (obstacles p) (contactSurfaces p)
    (numericalConstraints p) (paths p) (activeConstraints p) (targetState p)
    (resetCount p).

(** [p->addObstacle (obj, true, true)] *)
Definition addObstacle (obj : CollisionObject) (p : ProblemSolver) : ProblemSolver :=
  mkProblemSolver (robot p) (obstacles p ++ [obj]) (contactSurfaces p)
    (numericalConstraints p) (paths p) (activeConstraints p) (targetState p)
    (resetCount p).

(** [p->add (name, triangleList)] *)
Definition add_TriangleList (n : string) (t : TriangleList) (p : ProblemSolver)
    : ProblemSolver :=
  mkProblemSolver (robot p) (obstacles p) (<[n := t]> (contactSurfaces p))
    (numericalConstraints p) (paths p) (activeConstraints p) (targetState p)
    (resetCount p).

(** [p->addNumericalConstraint (name, c)] *)
Definition addNumericalConstraint (n : string) (c : Constraint) (p : ProblemSolver)
    : ProblemSolver :=
  mkProblemSolver (robot p) (obstacles p) (contactSurfaces p)
    (<[n := c]> (numericalConstraints p)) (paths p) (activeConstraints p)
    (targetState p) (resetCount p).

(** [p->addPath (path)] *)
Definition addPath (path : Path) (p : ProblemSolver) : ProblemSolver :=
  mkProblemSolver (robot p) (obstacles p) (contactSurfaces p)
    (numericalConstraints p) (paths p ++ [path]) (activeConstraints p)
    (targetState p) (resetCount p).

(** Modelled from the spec: [ProblemSolver::resetProblem] belongs to the
    planning library.  It discards the mutable planning state of the
    session (graph selection, goal override) and preserves the loaded
    robot and the obstacles; the path list is append-only and the
    constraint map is left alone. *)
Definition resetProblem (p : ProblemSolver) : ProblemSolver :=
  mkProblemSolver (robot p) (obstacles p) (contactSurfaces p)
    (numericalConstraints p) (paths p) None None (S (resetCount p)).

(** ** robot.impl.cc *)

Module RobotImpl.

(** The six strings every model-loading operation receives. *)
Record ModelArgs : Type := mkModelArgs
  { robotName : string;
    rootJointType : string;
    packageName : string;
    modelName : string;
    urdfSuffix : string;
    srdfSuffix : string }.

(** [manipulation::srdf::load*Model (robot, robot->rootJoint (), ...)]:
    the parser works on the device it is handed; it returns the device
    as it left it and, if it threw, the [what ()] of the exception. *)
Definition ModelLoader : Type :=
  Device -> JointPtr -> ModelArgs -> Device * option string.

(** What [loadEnvironmentModel] reads from the device the environment
    parser filled: the collision objects in the order of
    [objectIterator (COLLISION)], given as (geometry, transform, name),
    and the [TriangleList] container in iteration order. *)
Record EnvironmentDevice : Type := mkEnvironmentDevice
  { collisionObjects : list CollisionObject;
    triangleLists : list (string * TriangleList) }.

(** [manipulation::srdf::loadEnvironmentModel (object, package,
    envModelName, urdfSuffix, srdfSuffix)], where [object] is a fresh
    [Device::create (envModelName)]. *)
Definition EnvironmentLoader : Type :=
  string -> string -> string -> string -> EnvironmentDevice * option string.

(** *** The three helpers of the anonymous namespace *)

Definition getOrCreateRobot (p : ProblemSolver) : ProblemSolver * Device :=
  match robot p with
  | Some r => (p, r)
  | None =>
      let t := setIdentity in
      let rj := createJointAnchor t in
      let rj := Joint_set_name "base_joint" rj in
      let r := Device_create "Robot" rj in
      (set_robot r p, r)
  end.

Definition getRobotOrThrow (p : ProblemSolver) : result Device :=
  match robot p with
  | None => Raise (HppError "Robot not found.")
  | Some r => Return r
  end.

Definition getJointByBodyNameOrThrow (p : ProblemSolver) (n : string)
    : result JointPtr :=
  match getRobotOrThrow p with
  | Raise e => Raise e
  | Return r =>
      match getJointByBodyName r n with
      | None => Raise (HppError "Joint not found.")
      | Some j => Return j
      end
  end.

(** *** Model loading *)

(** The common body of [insertRobotModel], [insertObjectModel] and
    [insertHumanoidModel], which differ by the parser they call. *)
Definition insertModel (load : ModelLoader) (p : ProblemSolver) (a : ModelArgs)
    : ProblemSolver * result unit :=
  let '(p1, robot) := getOrCreateRobot p in
  let '(robot', thrown) := load robot [] a in
  let p2 := set_robot robot' p1 in
  match thrown with
  | Some what => (p2, catch_std (Raise (StdException what)))
  | None => (resetProblem p2, Return tt)
  end.

Section Collaborators.

Variable srdf_loadRobotModel : ModelLoader.
Variable srdf_loadObjectModel : ModelLoader.
Variable srdf_loadHumanoidModel : ModelLoader.
Variable srdf_loadEnvironmentModel : EnvironmentLoader.

Definition insertRobotModel := insertModel srdf_loadRobotModel.
Definition insertObjectModel := insertModel srdf_loadObjectModel.
Definition insertHumanoidModel := insertModel srdf_loadHumanoidModel.

Definition loadEnvironmentModel (p : ProblemSolver)
    (package envModelName urdf srdf prefix : string)
    : ProblemSolver * result unit :=
  let '(object, thrown) :=
    srdf_loadEnvironmentModel package envModelName urdf srdf in
  match thrown with
  | Some what => (p, catch_std (Raise (StdException what)))
  | None =>
      let p1 :=
        fold_left
          (fun acc itObj =>
             let obj :=
               CollisionObject_create (CollisionObject_geometry itObj)
                 (CollisionObject_transform itObj)
                 (prefix ++ CollisionObject_name itObj) in
             addObstacle obj acc)
          (collisionObjects object) p in
      let p2 :=
        fold_left
          (fun acc it => add_TriangleList (prefix ++ fst it) (snd it) acc)
          (triangleLists object) p1 in
      (p2, Return tt)
  end.

End Collaborators.

(** The three operations built on [getOrCreateRobot]. *)
Definition insertOperations
    : list (ModelLoader -> ProblemSolver -> ModelArgs -> ProblemSolver * result unit) :=
  [insertRobotModel; insertObjectModel; insertHumanoidModel].

(** *** Root joint position *)

(** [name.compare (0, n.size (), n) == 0] *)
Definition startsWith (name n : string) : bool := String.prefix n name.

(** The loop over [root->childJoint (i)]: index of the first child
    whose name starts with [n], counting from [i]. *)
Fixpoint findChild (n : string) (i : nat) (cs : list Joint) : option nat :=
  match cs with
  | [] => None
  | c :: cs' =>
      if startsWith (Joint_name c) n then Some i
      else findChild n (S i) cs'
  end.

Definition getRootJointPosition (p : ProblemSolver) (robotName : string)
    : result Transform_ :=
  match getRobotOrThrow p with
  | Raise e => Raise e
  | Return robot =>
      let root := rootJoint robot in
      match findChild robotName 0 (Joint_childJoints root) with
      | None =>
          Raise (HppError "Root of subtree with the provided prefix not found")
      | Some i =>
          match Joint_childJoints root !! i with
          | None =>
              Raise (HppError "Root of subtree with the provided prefix not found")
          | Some joint =>
              Return (encodeTransform (Joint_positionInParentFrame joint))
          end
      end
  end.

(** [root->childJoint (i)->positionInParentFrame (T)] *)
Definition Joint_set_childPosition (i : nat) (T : Transform3f) (root : Joint) : Joint :=
  match root with
  | mkJoint n k b T0 cs =>
      mkJoint n k b T0
        (alter (Joint_set_positionInParentFrame T) i cs)
  end.

Definition setRootJointPosition (p : ProblemSolver) (robotName : string)
    (position : Transform_) : ProblemSolver * result unit :=
  match getRobotOrThrow p with
  | Raise e => (p, Raise e)
  | Return robot =>
      let root := rootJoint robot in
      match findChild robotName 0 (Joint_childJoints root) with
      | None =>
          (p, Raise (HppError "Root of subtree with the provided prefix not found"))
      | Some i =>
          let T := decodeTransform position in
          let robot' :=
            Device_set_rootJoint (Joint_set_childPosition i T root) robot in
          (set_robot robot' p, Return tt)
      end
  end.

(** *** Handles and grippers *)

Definition addHandle (p : ProblemSolver) (linkName handleName : string)
    (localPosition : Transform_) : ProblemSolver * result unit :=
  match getRobotOrThrow p with
  | Raise e => (p, Raise e)
  | Return robot =>
      match getJointByBodyNameOrThrow p linkName with
      | Raise e => (p, Raise e)
      | Return joint =>
          let handle :=
            Handle_create handleName (decodeTransform localPosition) joint in
          (set_robot (Device_add_handle handleName handle robot) p, Return tt)
      end
  end.

Definition addAxialHandle (p : ProblemSolver) (linkName handleName : string)
    (localPosition : Transform_) : ProblemSolver * result unit :=
  match getRobotOrThrow p with
  | Raise e => (p, Raise e)
  | Return robot =>
      match getJointByBodyNameOrThrow p linkName with
      | Raise e => (p, Raise e)
      | Return joint =>
          let handle :=
            AxialHandle_create handleName (decodeTransform localPosition) joint in
          (set_robot (Device_add_handle handleName handle robot) p, Return tt)
      end
  end.

(** The loop of [addGripper]:
    [jointInCollision.push_back (robot->getJointByBodyName (bodyName))] *)
Definition resolveBodies (robot : Device) (bodyInCollisionNames : list string)
    : list (option JointPtr) :=
  map (getJointByBodyName robot) bodyInCollisionNames.

Definition addGripper (p : ProblemSolver) (linkName gripperName : string)
    (pos : Transform_) (bodyInCollisionNames : list string)
    : ProblemSolver * result unit :=
  match getRobotOrThrow p with
  | Raise e => (p, Raise e)
  | Return robot =>
      match getJointByBodyNameOrThrow p linkName with
      | Raise e => (p, Raise e)
      | Return joint =>
          let jointInCollision := resolveBodies robot bodyInCollisionNames in
          let gripper :=
            Gripper_create gripperName joint (decodeTransform pos)
              jointInCollision in
          (set_robot (Device_add_gripper gripperName gripper robot) p, Return tt)
      end
  end.

(** *** The body lookup of the model library *)

(** What [Device::getJointByBodyName] does when no joint carries the
    body: hand back a null pointer, or throw. *)
Inductive OnMiss : Type :=
| MissReturnsNull
| MissThrows (what : string).

(** Modelled from the spec: [Device::getJointByBodyName] belongs to the
    model library.  A name that designates a body resolves to the joint
    that carries it; for a name that does not, the spec has the
    resolution fail, which is [MissThrows], [what] being the message of
    the exception.  [MissReturnsNull] is the behaviour the null test of
    [getJointByBodyNameOrThrow] provides for. *)
Definition Device_getJointByBodyName (miss : OnMiss) (r : Device) (n : string)
    : result (option JointPtr) :=
  match getJointByBodyName r n with
  | Some j => Return (Some j)
  | None =>
      match miss with
      | MissReturnsNull => Return None
      | MissThrows what => Raise (StdException what)
      end
  end.

(** [getJointByBodyNameOrThrow], over that lookup. *)
Definition getJointByBodyNameOrThrowWith (miss : OnMiss) (p : ProblemSolver)
    (n : string) : result JointPtr :=
  match getRobotOrThrow p with
  | Raise e => Raise e
  | Return r =>
      match Device_getJointByBodyName miss r n with
      | Raise e => Raise e
      | Return None => Raise (HppError "Joint not found.")
      | Return (Some j) => Return j
      end
  end.

(** The loop of [addGripper], over that lookup: an exception leaves the
    loop, and the vector built so far is dropped. *)
Fixpoint resolveBodiesWith (miss : OnMiss) (robot : Device)
    (bodyInCollisionNames : list string) : result (list (option JointPtr)) :=
  match bodyInCollisionNames with
  | [] => Return []
  | bodyName :: names =>
      match Device_getJointByBodyName miss robot bodyName with
      | Raise e => Raise e
      | Return j =>
          match resolveBodiesWith miss robot names with
          | Raise e => Raise e
          | Return js => Return (j :: js)
          end
      end
  end.

(** [Robot::addGripper], over that lookup.  The whole body is inside the
    [try] block: whatever the lookup throws is caught and raised again
    as the remote fault, before [robot->add] is reached. *)
Definition addGripperWith (miss : OnMiss) (p : ProblemSolver)
    (linkName gripperName : string) (pos : Transform_)
    (bodyInCollisionNames : list string) : ProblemSolver * result unit :=
  match getRobotOrThrow p with
  | Raise e => (p, catch_std (Raise e))
  | Return robot =>
      match getJointByBodyNameOrThrowWith miss p linkName with
      | Raise e => (p, catch_std (Raise e))
      | Return joint =>
          match resolveBodiesWith miss robot bodyInCollisionNames with
          | Raise e => (p, catch_std (Raise e))
          | Return jointInCollision =>
              let gripper :=
                Gripper_create gripperName joint (decodeTransform pos)
                  jointInCollision in
              (set_robot (Device_add_gripper gripperName gripper robot) p, Return tt)
          end
      end
  end.

End RobotImpl.

(** ** The problem registry *)

Module Registry.

(** A [ProblemSolverPtr_t]: the index of the session among the sessions
    allocated so far. *)
Definition Ptr : Type := nat.

(** Modelled from the spec: the registry class lives in the core
    server library.  It is a mapping from problem name to session and
    one selected reference, which is unset or designates a session. *)
Record ProblemSolverMap : Type := mkProblemSolverMap
  { sessions : list ProblemSolver;
    map_ : gmap string Ptr;
    selected : option Ptr }.

(** [new ProblemSolver ()], [CoreProblemSolver::create ()] *)
Definition allocate (m : ProblemSolverMap) : ProblemSolverMap * Ptr :=
  (mkProblemSolverMap (sessions m ++ [ProblemSolver_create]) (map_ m) (selected m),
   length (sessions m)).

(** [map_ [name] = ptr] *)
Definition assign (name : string) (ptr : Ptr) (m : ProblemSolverMap)
    : ProblemSolverMap :=
  mkProblemSolverMap (sessions m) (<[name := ptr]> (map_ m)) (selected m).

Definition select (ptr : Ptr) (m : ProblemSolverMap) : ProblemSolverMap :=
  mkProblemSolverMap (sessions m) (map_ m) (Some ptr).

(** The session the modules bound to the registry operate on. *)
Definition current (m : ProblemSolverMap) : option ProblemSolver :=
  match selected m with
  | Some ptr => sessions m !! ptr
  | None => None
  end.

(** Modelled from the spec: [Problem::selectProblem] is declared in
    [problem.idl]; its body is in [problem.impl.cc].  If [name] is
    absent, an empty session is created, registered and made current,
    and the result is [true]; if it is present, it is made current and
    the result is [false]. *)
Definition selectProblem (name : string) (m : ProblemSolverMap)
    : ProblemSolverMap * bool :=
  match map_ m !! name with
  | Some ptr => (select ptr m, false)
  | None =>
      let '(m1, ptr) := allocate m in
      (select ptr (assign name ptr m1), true)
  end.

(** A client issuing [selectProblem] for each name of a list, in order. *)
Definition selectProblems (names : list string) (m : ProblemSolverMap)
    : ProblemSolverMap :=
  fold_left (fun acc n => fst (selectProblem n acc)) names m.

End Registry.

(** ** The Problem interface (problem.idl) *)

Module ProblemImpl.

(** The degrees of freedom a handle leaves free, in the order
    translation x y z, rotation x y z.  An axial handle frees the
    rotation about its local x-axis. *)
Definition freeDof (k : HandleKind) : list bool :=
  match k with
  | PlainHandle => [false; false; false; false; false; false]
  | AxialHandle => [false; false; false; true; false; false]
  end.

(** Modelled from the spec: [Problem::createGrasp] is declared in
    [problem.idl]; its body is in [problem.impl.cc].  The gripper and
    the handle are looked up in the robot of the session; the
    constraint [graspName] fixes the relative pose except for the free
    degrees of freedom of the handle, and [graspName/complement] fixes
    exactly those. *)
Definition createGrasp (p : ProblemSolver) (graspName gripperName handleName : string)
    : ProblemSolver * result unit :=
  match robot p with
  | None => (p, Raise (HppError "Robot not found."))
  | Some r =>
      match grippers r !! gripperName, handles r !! handleName with
      | Some _, Some h =>
          let free := freeDof (Handle_kind h) in
          let grasp := mkConstraint gripperName handleName (map negb free) in
          let complement := mkConstraint gripperName handleName free in
          let p1 := addNumericalConstraint graspName grasp p in
          let p2 :=
            addNumericalConstraint (graspName ++ "/complement") complement p1 in
          (p2, Return tt)
      | None, _ => (p, Raise (HppError "Gripper not found."))
      | _, None => (p, Raise (HppError "Handle not found."))
      end
  end.

Section Collaborators.

(** [Edge::build]: the path-building method of a graph edge; [None]
    when the path cannot be built. *)
Variable Edge_build : ID -> Configuration -> Configuration -> option Path.

(** The path projector of the edge; [None] when the path cannot be
    fully projected. *)
Variable PathProjector_apply : ID -> Path -> option Path.

(** Modelled from the spec: [Problem::buildAndProjectPath] is
    declared in [problem.idl]; its body is in [problem.impl.cc].  The
    built path is appended whatever the outcome of the projection;
    the projected path is appended as a second entry.  The result is
    [(ok, indexNotProj, indexProj)]. *)
Definition buildAndProjectPath (p : ProblemSolver) (IDedge : ID)
    (qb qe : Configuration) : ProblemSolver * (bool * Z * Z) :=
  match Edge_build IDedge qb qe with
  | None => (p, (false, (-1)%Z, (-1)%Z))
  | Some path =>
      let indexNotProj := Z.of_nat (length (paths p)) in
      let p1 := addPath path p in
      match PathProjector_apply IDedge path with
      | None => (p1, (false, indexNotProj, (-1)%Z))
      | Some projPath =>
          let indexProj := Z.of_nat (length (paths p1)) in
          let p2 := addPath projPath p1 in
          (p2, (true, indexNotProj, indexProj))
      end
  end.

End Collaborators.

End ProblemImpl.

(** ** hpp-manipulation-corba.cc: the entry point *)

Module Main.
Import Registry.

(** The build-time feature flags tested by the preprocessor. *)
Record Flags : Type := mkFlags
  { HPP_MANIPULATION_HAS_WHOLEBODY_STEP : bool;
    HPP_MANIPULATION_HAS_RBPRM : bool }.

Inductive Server : Type :=
| CorbaServer
| ManipulationServer
| WholebodyStepServer
| RbprmServer.

(** What a server module resolves its session through: the shared
    registry ([setProblemSolverMap]) or one session ([setProblemSolver]). *)
Inductive Binding : Type :=
| ToProblemSolverMap
| ToProblemSolver (ptr : Ptr).

Record Process : Type := mkProcess
  { problemSolverMap : ProblemSolverMap;
    bindings : list (Server * Binding);
    started : list (Server * list string);
    processingRequests : bool }.

(** [CorbaServer corbaServer (problemSolver, argc, argv, true)]: the
    core server builds the registry around the session it receives,
    registered under [initialName] and selected. *)
Definition CorbaServer_create (initialName : string) : Process :=
  let '(m, problemSolver) := allocate (mkProblemSolverMap [] ∅ None) in
  mkProcess (select problemSolver (assign initialName problemSolver m))
    [(CorbaServer, ToProblemSolverMap)] [] false.

Definition setProblemSolverMap (s : Server) (pr : Process) : Process :=
  mkProcess (problemSolverMap pr) (bindings pr ++ [(s, ToProblemSolverMap)])
    (started pr) (processingRequests pr).

Definition setProblemSolver (s : Server) (ptr : Ptr) (pr : Process) : Process :=
  mkProcess (problemSolverMap pr) (bindings pr ++ [(s, ToProblemSolver ptr)])
    (started pr) (processingRequests pr).

Definition startCorbaServer (s : Server) (context : list string) (pr : Process)
    : Process :=
  mkProcess (problemSolverMap pr) (bindings pr) (started pr ++ [(s, context)])
    (processingRequests pr).

Definition with_problemSolverMap (m : ProblemSolverMap) (pr : Process) : Process :=
  mkProcess m (bindings pr) (started pr) (processingRequests pr).

(** [corbaServer.processRequest (true)] *)
Definition processRequest (pr : Process) : Process :=
  mkProcess (problemSolverMap pr) (bindings pr) (started pr) true.

(** The [HPP_MANIPULATION_HAS_WHOLEBODY_STEP] block. *)
Definition wholebodyStepBlock (pr : Process) : Process :=
  let pr := setProblemSolverMap WholebodyStepServer pr in
  startCorbaServer WholebodyStepServer
    ["hpp"; "corbaserver"; "wholebodyStep"; "problem"] pr.

(** The [HPP_MANIPULATION_HAS_RBPRM] block. *)
Definition rbprmBlock (pr : Process) : Process :=
  let '(m, problemSolverRbprm) := allocate (problemSolverMap pr) in
  let pr := with_problemSolverMap (assign "rbprm" problemSolverRbprm m) pr in
  let pr := setProblemSolver RbprmServer problemSolverRbprm pr in
  startCorbaServer RbprmServer ["hpp"; "corbaserver"; "rbprm"] pr.

(** Everything [main] does before it enters the request loop. *)
Definition startup (flags : Flags) (initialName : string) : Process :=
  let pr := CorbaServer_create initialName in
  let pr := setProblemSolverMap ManipulationServer pr in
  let pr := startCorbaServer CorbaServer [] pr in
  let pr :=
    if HPP_MANIPULATION_HAS_WHOLEBODY_STEP flags then wholebodyStepBlock pr
    else pr in
  let pr :=
    if HPP_MANIPULATION_HAS_RBPRM flags then rbprmBlock pr else pr in
  startCorbaServer ManipulationServer ["hpp"; "corbaserver"; "manipulation"] pr.

Definition main (flags : Flags) (initialName : string) : Process :=
  processRequest (startup flags initialName).

#[global] Instance Server_eq_dec : EqDecision Server.
Proof. solve_decision. Defined.

(** The binding of a server module. *)
Definition binding (s : Server) (pr : Process) : option Binding :=
  match filter (fun b => bool_decide (fst b = s)) (bindings pr) with
  | [] => None
  | b :: _ => Some (snd b)
  end.

(** The session at [ptr] is reachable under the reserved name only, and
    is not the current one. *)
Definition reservedApart (ptr : Ptr) (m : ProblemSolverMap) : Prop :=
  (forall k, map_ m !! k = Some ptr -> k = "rbprm") /\
  selected m <> Some ptr /\
  ptr < length (sessions m).

End Main.


(** ** Sample inputs *)

Module Samples.
Import RobotImpl.

(** [root->addChildJoint (c)] *)
Definition Joint_addChildJoint (c : Joint) (root : Joint) : Joint :=
  match root with
  | mkJoint n k b T cs => mkJoint n k b T (cs ++ [c])
  end.

(** A parser that hangs one joint [<robotName>/base_joint], carrying the
    body [<robotName>/base_link], under the joint it is given the device
    of. *)
Definition loadOneLink : ModelLoader :=
  fun robot _ a =>
    let j :=
      mkJoint (robotName a ++ "/base_joint") JointSO3
        (Some (robotName a ++ "/base_link")) setIdentity [] in
    (Device_set_rootJoint (Joint_addChildJoint j (rootJoint robot)) robot, None).

(** A parser that throws without touching the device. *)
Definition loadNothing : ModelLoader :=
  fun robot _ _ => (robot, Some "Unable to find the model file").

Definition pr2 : ModelArgs :=
  mkModelArgs "pr2" "freeflyer" "hpp_tutorial" "pr2" "" "".

Definition box : ModelArgs :=
  mkModelArgs "box" "freeflyer" "hpp_tutorial" "box" "" "".

(** An environment made of one collision object and one contact surface. *)
Definition loadKitchen : EnvironmentLoader :=
  fun _ _ _ _ =>
    (mkEnvironmentDevice
       [mkCollisionObject "table_mesh" setIdentity "table"]
       [("table_top", [])],
     None).

(** An environment that only declares a contact surface. *)
Definition loadContactSurface : EnvironmentLoader :=
  fun _ _ _ _ => (mkEnvironmentDevice [] [("floor", [])], None).

Definition pose : Transform_ := mkTransform_ 1 2 3 0 0 0 1.

(** A session in which [pr2] has been loaded. *)
Definition withPr2 : ProblemSolver :=
  fst (insertRobotModel loadOneLink ProblemSolver_create pr2).

Definition withPr2Robot : Device :=
  fst (loadOneLink (snd (getOrCreateRobot ProblemSolver_create)) [] pr2).

(** A session in which [pr2] and then [box] have been loaded: the root
    has two children, [pr2/base_joint] and [box/base_joint]. *)
Definition withPr2AndBox : ProblemSolver :=
  fst (insertObjectModel loadOneLink withPr2 box).

Definition withPr2AndBoxRobot : Device :=
  fst (loadOneLink withPr2Robot [] box).

(** A session in which a model was asked for and the parser threw. *)
Definition afterFailedLoad : ProblemSolver :=
  fst (insertRobotModel loadNothing ProblemSolver_create pr2).

(** A session whose robot has a gripper and an axial handle. *)
Definition withGripperAndHandle : ProblemSolver :=
  let p := fst (addGripper withPr2 "pr2/base_link" "pr2/gripper" pose []) in
  fst (addAxialHandle p "pr2/base_link" "box/handle" pose).

(** An edge method joining the two configurations directly, and a
    projector that always succeeds. *)
Definition buildStraight (IDedge : ID) (qb qe : Configuration) : option Path :=
  Some (mkPath IDedge qb qe false).

Definition projectAlways (IDedge : ID) (path : Path) : option Path :=
  Some (mkPath (Path_edge path) (Path_initial path) (Path_end path) true).

End Samples.

(** * Properties *)

Import RobotImpl.

(** ** Lazy creation of the robot *)

Lemma getOrCreateRobot_present (p : ProblemSolver) (r : Device) :
  robot p = Some r -> getOrCreateRobot p = (p, r).
Proof. intros H. unfold getOrCreateRobot. now rewrite H. Qed.

Lemma getOrCreateRobot_robot (p : ProblemSolver) :
  robot (fst (getOrCreateRobot p)) = Some (snd (getOrCreateRobot p)).
Proof. unfold getOrCreateRobot. destruct (robot p) eqn:E; simpl; auto. Qed.

(** The session an insert operation leaves behind always holds the
    device the parser worked on, whether the parser threw or not. *)
Lemma insertModel_robot (load : ModelLoader) (p : ProblemSolver) (a : ModelArgs) :
  robot (fst (insertModel load p a))
  = Some (fst (load (snd (getOrCreateRobot p)) [] a)).
Proof.
  unfold insertModel.
  destruct (getOrCreateRobot p) as [p1 r]; simpl.
  destruct (load r [] a) as [r' [what|]]; reflexivity.
Qed.

(** An insert operation succeeds exactly when its parser does not throw,
    and then the session has been reset once. *)
Lemma insertModel_Return (load : ModelLoader) (p p' : ProblemSolver) (a : ModelArgs) :
  insertModel load p a = (p', Return tt) ->
  snd (load (snd (getOrCreateRobot p)) [] a) = None /\
  p' = resetProblem
         (set_robot (fst (load (snd (getOrCreateRobot p)) [] a))
            (fst (getOrCreateRobot p))).
Proof.
  unfold insertModel.
  destruct (getOrCreateRobot p) as [p1 r]; simpl.
  destruct (load r [] a) as [r' [what|]]; simpl; intros H.
  - discriminate H.
  - now inversion H.
Qed.

Lemma insertOperations_insertModel op :
  In op insertOperations -> op = insertModel.
Proof.
  unfold insertOperations. simpl.
  intros [H | [H | [H | []]]]; subst op; reflexivity.
Qed.

(** C10.  When a session has no robot, [getOrCreateRobot] creates a
    device named "Robot" whose root is an anchor joint named
    "base_joint" at the identity transform and stores it on the session;
    this is the device the first [insertRobotModel], [insertObjectModel]
    or [insertHumanoidModel] hands to its parser and leaves on the
    session.  On a session that has a robot, and so on any session an
    insert operation has returned from, [getOrCreateRobot] returns that
    robot and changes nothing. *)
Theorem getOrCreateRobot_creates_once (p : ProblemSolver) (H : robot p = None) :
  let p1 := fst (getOrCreateRobot p) in
  let r := snd (getOrCreateRobot p) in
  (Device_name r = "Robot" /\
   Joint_kind (rootJoint r) = JointAnchor /\
   Joint_name (rootJoint r) = "base_joint" /\
   Joint_positionInParentFrame (rootJoint r) = setIdentity /\
   Joint_childJoints (rootJoint r) = [] /\
   robot p1 = Some r) /\
  getOrCreateRobot p1 = (p1, r) /\
  (forall q r', robot q = Some r' -> getOrCreateRobot q = (q, r')) /\
  (forall op load a, In op insertOperations ->
     let p2 := fst (op load p a) in
     let r2 := fst (load r [] a) in
     robot p2 = Some r2 /\ getOrCreateRobot p2 = (p2, r2)).
Proof.
  intros p1 r. subst p1 r.
  assert (E : getOrCreateRobot p
              = (set_robot (Device_create "Robot"
                   (Joint_set_name "base_joint" (createJointAnchor setIdentity))) p,
                 Device_create "Robot"
                   (Joint_set_name "base_joint" (createJointAnchor setIdentity)))).
  { unfold getOrCreateRobot. now rewrite H. }
  rewrite E. simpl fst. simpl snd.
  split; [repeat split |].
  split; [reflexivity |].
  split; [exact getOrCreateRobot_present |].
  intros op load a Hop p2 r2. subst p2 r2.
  rewrite (insertOperations_insertModel op Hop).
  assert (R2 : robot (fst (insertModel load p a))
               = Some (fst (load (Device_create "Robot"
                   (Joint_set_name "base_joint" (createJointAnchor setIdentity))) [] a))).
  { rewrite insertModel_robot. now rewrite E. }
  split; [exact R2 | now apply getOrCreateRobot_present].
Qed.

Lemma getOrCreateRobot_creates_once_witness :
  robot ProblemSolver_create = None /\
  Device_name (snd (getOrCreateRobot ProblemSolver_create)) = "Robot".
Proof.
  split; [reflexivity |].
  exact (proj1 (proj1 (getOrCreateRobot_creates_once ProblemSolver_create eq_refl))).
Defined.

(** ** Model loading and [resetProblem] *)

Lemma fold_addObstacle_robot (f : CollisionObject -> CollisionObject)
    (l : list CollisionObject) (p : ProblemSolver) :
  let p' := fold_left (fun acc o => addObstacle (f o) acc) l p in
  robot p' = robot p /\ resetCount p' = resetCount p /\
  activeConstraints p' = activeConstraints p /\ targetState p' = targetState p /\
  obstacles p' = (obstacles p ++ map f l)%list.
Proof.
  revert p. induction l as [|o l IH]; intros p; simpl.
  - now rewrite app_nil_r.
  - destruct (IH (addObstacle (f o) p)) as (H1 & H2 & H3 & H4 & H5).
    simpl in *. rewrite H1, H2, H3, H4, H5.
    now rewrite <- app_assoc.
Qed.

Lemma fold_add_TriangleList_robot (prefix : string)
    (l : list (string * TriangleList)) (p : ProblemSolver) :
  let p' :=
    fold_left (fun acc it => add_TriangleList (prefix ++ fst it) (snd it) acc) l p in
  robot p' = robot p /\ resetCount p' = resetCount p /\
  activeConstraints p' = activeConstraints p /\ targetState p' = targetState p /\
  obstacles p' = obstacles p.
Proof.
  revert p. induction l as [|it l IH]; intros p; simpl.
  - auto.
  - destruct (IH (add_TriangleList (prefix ++ fst it) (snd it) p))
      as (H1 & H2 & H3 & H4 & H5).
    simpl in *. now rewrite H1, H2, H3, H4, H5.
Qed.

(** [loadEnvironmentModel] neither resets the problem nor creates or
    touches the robot of the session. *)
Lemma loadEnvironmentModel_keeps (load : EnvironmentLoader) (p : ProblemSolver)
    (package envModelName urdf srdf prefix : string) :
  let p' := fst (loadEnvironmentModel load p package envModelName urdf srdf prefix) in
  robot p' = robot p /\ resetCount p' = resetCount p /\
  activeConstraints p' = activeConstraints p /\ targetState p' = targetState p.
Proof.
  unfold loadEnvironmentModel.
  destruct (load package envModelName urdf srdf) as [object [what|]]; simpl.
  - auto.
  - match goal with
    | |- context [fold_left ?g (triangleLists object) ?q] =>
        destruct (fold_add_TriangleList_robot prefix (triangleLists object) q)
          as (H1 & H2 & H3 & H4 & _)
    end.
    match goal with
    | |- context [fold_left ?g (collisionObjects object) p] =>
        destruct (fold_addObstacle_robot
                    (fun itObj =>
                       CollisionObject_create (CollisionObject_geometry itObj)
                         (CollisionObject_transform itObj)
                         (prefix ++ CollisionObject_name itObj))
                    (collisionObjects object) p)
          as (G1 & G2 & G3 & G4 & _)
    end.
    simpl in *. rewrite H1, H2, H3, H4. auto.
Qed.

(** C1, as the code has it.  A successful [insertRobotModel],
    [insertObjectModel] or [insertHumanoidModel] calls [resetProblem]
    once on the session, after the parser has worked on the robot of the
    session: the existing one if there was one, the one created by
    [getOrCreateRobot] otherwise.  [loadEnvironmentModel] does neither:
    it leaves the reset count, the graph selection, the goal override
    and the robot (present or absent) as they were. *)
Theorem insert_operations_reset_and_create
    (op : ModelLoader -> ProblemSolver -> ModelArgs -> ProblemSolver * result unit)
    (load : ModelLoader) (p p' : ProblemSolver) (a : ModelArgs)
    (Hop : In op insertOperations)
    (Hok : op load p a = (p', Return tt)) :
  (resetCount p' = S (resetCount p) /\
   activeConstraints p' = None /\ targetState p' = None) /\
  (robot p = None ->
   robot p' = Some (fst (load (snd (getOrCreateRobot p)) [] a))) /\
  (forall r, robot p = Some r -> robot p' = Some (fst (load r [] a))) /\
  (forall envLoad package envModelName urdf srdf prefix,
     let q := fst (loadEnvironmentModel envLoad p package envModelName urdf srdf prefix) in
     robot q = robot p /\ resetCount q = resetCount p /\
     activeConstraints q = activeConstraints p /\ targetState q = targetState p).
Proof.
  rewrite (insertOperations_insertModel op Hop) in Hok.
  pose proof (insertModel_robot load p a) as Hr.
  rewrite Hok in Hr. simpl in Hr.
  destruct (insertModel_Return load p p' a Hok) as [_ Hp'].
  split; [| split; [| split]].
  - subst p'. simpl. repeat split.
    unfold getOrCreateRobot. destruct (robot p); reflexivity.
  - intros _. exact Hr.
  - intros r Hsome. rewrite Hr.
    now rewrite (getOrCreateRobot_present p r Hsome).
  - intros. apply loadEnvironmentModel_keeps.
Qed.

Lemma insert_operations_reset_and_create_witness :
  In insertObjectModel insertOperations /\
  resetCount (fst (insertObjectModel Samples.loadOneLink ProblemSolver_create Samples.box)) = 1.
Proof.
  assert (Hop : In insertObjectModel insertOperations) by (simpl; auto).
  split; [exact Hop |].
  exact (proj1 (proj1 (insert_operations_reset_and_create insertObjectModel
                         Samples.loadOneLink ProblemSolver_create _ Samples.box
                         Hop eq_refl))).
Defined.

(** C1, as the specification states it, fails for
    [loadEnvironmentModel].  On a fresh session the call succeeds, no
    reset has happened and the session still has no robot; on a session
    that has a robot the call succeeds and registers the obstacle
    without any further reset. *)
Lemma loadEnvironmentModel_no_reset_no_robot :
  let fresh := ProblemSolver_create in
  let out :=
    loadEnvironmentModel Samples.loadContactSurface fresh
      "hpp_environments" "ground" "" "" "ground/" in
  let out' :=
    loadEnvironmentModel Samples.loadKitchen Samples.withPr2
      "iai_maps" "kitchen_area" "" "" "kitchen/" in
  (snd out = Return tt /\
   resetCount (fst out) = resetCount fresh /\
   robot fresh = None /\ robot (fst out) = None) /\
  (snd out' = Return tt /\
   resetCount (fst out') = resetCount Samples.withPr2 /\
   robot (fst out') = robot Samples.withPr2 /\
   map CollisionObject_name (obstacles (fst out')) = ["kitchen/table"]).
Proof. simpl. repeat split. Qed.

(** ** Handles and grippers *)

(** C8.  On a session without robot, [addHandle] raises the fault
    "Robot not found." and leaves the session as it was.  Once
    [insertRobotModel] has succeeded on that session and the loaded
    device has a joint carrying the body [linkName], the same call
    returns normally and the handle is registered under [handleName],
    attached to that joint; nothing else changes on the device. *)
Theorem addHandle_requires_robot
    (load : ModelLoader) (p p' : ProblemSolver) (a : ModelArgs)
    (linkName handleName : string) (localPosition : Transform_)
    (r' : Device) (joint : JointPtr)
    (Hnone : robot p = None)
    (Hinsert : insertRobotModel load p a = (p', Return tt))
    (Hrobot : robot p' = Some r')
    (Hlink : getJointByBodyName r' linkName = Some joint) :
  addHandle p linkName handleName localPosition
    = (p, Raise (HppError "Robot not found.")) /\
  exists r'',
    addHandle p' linkName handleName localPosition = (set_robot r'' p', Return tt) /\
    handles r'' !! handleName
      = Some (Handle_create handleName (decodeTransform localPosition) joint) /\
    (forall n, n <> handleName -> handles r'' !! n = handles r' !! n) /\
    rootJoint r'' = rootJoint r' /\ grippers r'' = grippers r'.
Proof.
  split.
  - unfold addHandle, getRobotOrThrow. now rewrite Hnone.
  - exists (Device_add_handle handleName
              (Handle_create handleName (decodeTransform localPosition) joint) r').
    split; [| split; [| split; [| split]]].
    + unfold addHandle, getJointByBodyNameOrThrow, getRobotOrThrow.
      now rewrite Hrobot, Hlink.
    + simpl. apply lookup_insert_eq.
    + intros n Hn. simpl. now apply lookup_insert_ne.
    + reflexivity.
    + reflexivity.
Qed.

Lemma addHandle_requires_robot_witness :
  addHandle ProblemSolver_create "pr2/base_link" "pr2/handle" Samples.pose
    = (ProblemSolver_create, Raise (HppError "Robot not found.")).
Proof.
  exact (proj1 (addHandle_requires_robot Samples.loadOneLink ProblemSolver_create
                  Samples.withPr2 Samples.pr2 "pr2/base_link" "pr2/handle"
                  Samples.pose Samples.withPr2Robot [0]
                  eq_refl eq_refl eq_refl eq_refl)).
Defined.

(** The attachment link of a gripper goes through
    [getJointByBodyNameOrThrow]: an unknown link is a fault. *)
Lemma addGripper_unknown_link (p : ProblemSolver) (r : Device)
    (linkName gripperName : string) (pos : Transform_) (names : list string) :
  robot p = Some r -> getJointByBodyName r linkName = None ->
  addGripper p linkName gripperName pos names
    = (p, Raise (HppError "Joint not found.")).
Proof.
  intros Hr Hl. unfold addGripper, getJointByBodyNameOrThrow, getRobotOrThrow.
  now rewrite Hr, Hl.
Qed.

(** The entries of [bodyInCollisionNames] do not: whatever they are, the
    call returns normally as soon as the robot and the link exist, and
    the gripper is registered with one pointer per entry, null for the
    entries that name no body. *)
Lemma addGripper_ignores_unresolved (p : ProblemSolver) (r : Device)
    (linkName gripperName : string) (pos : Transform_) (names : list string)
    (joint : JointPtr) :
  robot p = Some r -> getJointByBodyName r linkName = Some joint ->
  exists r',
    addGripper p linkName gripperName pos names = (set_robot r' p, Return tt) /\
    grippers r' !! gripperName
      = Some (Gripper_create gripperName joint (decodeTransform pos)
                (map (getJointByBodyName r) names)).
Proof.
  intros Hr Hl.
  exists (Device_add_gripper gripperName
            (Gripper_create gripperName joint (decodeTransform pos)
               (resolveBodies r names)) r).
  split.
  - unfold addGripper, getJointByBodyNameOrThrow, getRobotOrThrow.
    now rewrite Hr, Hl.
  - simpl. apply lookup_insert_eq.
Qed.

(** With a lookup that hands back a null pointer on a miss: the robot
    has the body "pr2/base_link" and no body "no_such_body";
    [addGripper] with ["no_such_body"] among the bodies in collision
    returns normally and registers the gripper, with a null pointer for
    that entry. *)
Lemma addGripper_unresolved_body_registered :
  let p := Samples.withPr2 in
  let out := addGripper p "pr2/base_link" "pr2/gripper" Samples.pose ["no_such_body"] in
  robot p = Some Samples.withPr2Robot /\
  getJointByBodyName Samples.withPr2Robot "no_such_body" = None /\
  snd out = Return tt /\
  exists r g,
    robot (fst out) = Some r /\ grippers r !! "pr2/gripper" = Some g /\
    Gripper_jointInCollision g = [None].
Proof.
  intros p out.
  assert (Hr : robot p = Some Samples.withPr2Robot) by reflexivity.
  assert (Hl : getJointByBodyName Samples.withPr2Robot "pr2/base_link" = Some [0])
    by reflexivity.
  destruct (addGripper_ignores_unresolved p _ "pr2/base_link" "pr2/gripper"
              Samples.pose ["no_such_body"] [0] Hr Hl) as (r' & Hadd & Hg).
  split; [exact Hr |]. split; [reflexivity |].
  subst out. rewrite Hadd. split; [reflexivity |].
  exists r'. eexists. split; [reflexivity |]. split; [exact Hg | reflexivity].
Qed.

(** ** Root joint position *)

Section FindChild.

Variable n : string.

(** A successful scan stops on a child whose name starts with [n], and
    on the first such child. *)
Lemma findChild_Some (cs : list Joint) (k i : nat) :
  findChild n k cs = Some i ->
  exists j c,
    i = k + j /\ cs !! j = Some c /\ startsWith (Joint_name c) n = true /\
    forall j' c', j' < j -> cs !! j' = Some c' ->
                  startsWith (Joint_name c') n = false.
Proof.
  revert k. induction cs as [|c cs IH]; intros k; simpl.
  - discriminate.
  - destruct (startsWith (Joint_name c) n) eqn:E.
    + intros [= <-]. exists 0, c. repeat split; auto with arith.
      intros j' c' Hlt. inversion Hlt.
    + intros H. destruct (IH (S k) H) as (j & c0 & -> & Hj & Hc & Hfirst).
      exists (S j), c0.
      split; [lia |]. split; [exact Hj |]. split; [exact Hc |].
      intros [|j'] c' Hlt Hc'; simpl in Hc'.
      * now inversion Hc'; subst.
      * apply (Hfirst j' c'); [lia | exact Hc'].
Qed.

(** The scan fails only when no child matches. *)
Lemma findChild_None (cs : list Joint) (k : nat) :
  findChild n k cs = None ->
  forall c, In c cs -> startsWith (Joint_name c) n = false.
Proof.
  revert k. induction cs as [|c cs IH]; intros k; simpl.
  - intros _ c [].
  - destruct (startsWith (Joint_name c) n) eqn:E; [discriminate |].
    intros H c' [<- | Hin]; [exact E | exact (IH (S k) H c' Hin)].
Qed.

(** Writing the position of a child does not change what the scan finds:
    the names are left alone. *)
Lemma findChild_alter (T : Transform3f) (cs : list Joint) (k i : nat) :
  findChild n k (alter (Joint_set_positionInParentFrame T) i cs)
  = findChild n k cs.
Proof.
  revert k i. induction cs as [|c cs IH]; intros k i; simpl.
  - reflexivity.
  - destruct i as [|i]; simpl.
    + destruct c as [nm kd b T0 ch]; simpl. reflexivity.
    + destruct (startsWith (Joint_name c) n); [reflexivity | apply IH].
Qed.

End FindChild.

(** What a successful [setRootJointPosition] does: the first child of the
    root whose name starts with the prefix receives the decoded
    transform, and nothing else changes. *)
Lemma setRootJointPosition_Return (p q : ProblemSolver) (pre : string)
    (pos : Transform_) :
  setRootJointPosition p pre pos = (q, Return tt) ->
  exists r i c,
    robot p = Some r /\
    findChild pre 0 (Joint_childJoints (rootJoint r)) = Some i /\
    Joint_childJoints (rootJoint r) !! i = Some c /\
    q = set_robot
          (Device_set_rootJoint
             (Joint_set_childPosition i (decodeTransform pos) (rootJoint r)) r) p.
Proof.
  unfold setRootJointPosition, getRobotOrThrow.
  destruct (robot p) as [r|] eqn:Hr; [| discriminate].
  destruct (findChild pre 0 (Joint_childJoints (rootJoint r))) as [i|] eqn:Hf;
    [| discriminate].
  intros [= <-].
  destruct (findChild_Some pre _ 0 i Hf) as (j & c & -> & Hc & _).
  exists r, (0 + j), c. auto.
Qed.

Lemma Joint_set_childPosition_lookup (i : nat) (T : Transform3f) (root c : Joint) :
  Joint_childJoints root !! i = Some c ->
  Joint_childJoints (Joint_set_childPosition i T root) !! i
  = Some (Joint_set_positionInParentFrame T c).
Proof.
  destruct root as [nm kd b T0 cs]; simpl. intros H.
  now rewrite list_lookup_alter_eq, H.
Qed.

Lemma Joint_set_childPosition_findChild (pre : string) (i : nat) (T : Transform3f)
    (root : Joint) :
  findChild pre 0 (Joint_childJoints (Joint_set_childPosition i T root))
  = findChild pre 0 (Joint_childJoints root).
Proof. destruct root as [nm kd b T0 cs]; simpl. apply findChild_alter. Qed.

Lemma Joint_position_set (T : Transform3f) (c : Joint) :
  Joint_positionInParentFrame (Joint_set_positionInParentFrame T c) = T.
Proof. now destruct c. Qed.

Lemma encode_decode (pos : Transform_) : encodeTransform (decodeTransform pos) = pos.
Proof. now destruct pos. Qed.

(** Reading back right after writing returns the tuple that was written,
    component for component. *)
Lemma set_get_RootJointPosition_exact (p : ProblemSolver) (r : Device)
    (pre : string) (pos : Transform_) (c : Joint) :
  robot p = Some r ->
  In c (Joint_childJoints (rootJoint r)) ->
  startsWith (Joint_name c) pre = true ->
  snd (setRootJointPosition p pre pos) = Return tt /\
  getRootJointPosition (fst (setRootJointPosition p pre pos)) pre = Return pos.
Proof.
  intros Hr Hin Hc.
  destruct (findChild pre 0 (Joint_childJoints (rootJoint r))) as [i|] eqn:Hf.
  - destruct (findChild_Some pre _ 0 i Hf) as (j & c0 & Hi & Hc0 & _).
    simpl in Hi. subst j.
    unfold setRootJointPosition, getRobotOrThrow. rewrite Hr, Hf. simpl.
    split; [reflexivity |].
    unfold getRootJointPosition, getRobotOrThrow. simpl.
    rewrite Joint_set_childPosition_findChild, Hf.
    rewrite (Joint_set_childPosition_lookup i _ _ c0 Hc0).
    now rewrite Joint_position_set, encode_decode.
  - pose proof (findChild_None pre _ 0 Hf c Hin) as Hno. congruence.
Qed.

Lemma withinTolerance_refl (pos : Transform_) : withinTolerance pos pos.
Proof.
  unfold withinTolerance.
  repeat split;
    match goal with
    | |- (Rabs (?x - ?x) <= _)%R =>
        replace (x - x)%R with 0%R by lra; rewrite Rabs_R0; lra
    end.
Qed.

(** C6.  If the robot of the session has, among the immediate children
    of its root joint, one whose name starts with [pre], then for every
    seven-number pose [pos], [setRootJointPosition (pre, pos)] returns
    normally and [getRootJointPosition (pre)] on the resulting session
    returns a tuple within 1e-9 of [pos] on each component (the very
    tuple, as no renormalisation takes place). *)
Theorem set_get_RootJointPosition_roundtrip (p : ProblemSolver) (r : Device)
    (pre : string) (pos : Transform_) (c : Joint)
    (Hrobot : robot p = Some r)
    (Hchild : In c (Joint_childJoints (rootJoint r)))
    (Hprefix : startsWith (Joint_name c) pre = true) :
  snd (setRootJointPosition p pre pos) = Return tt /\
  exists res,
    getRootJointPosition (fst (setRootJointPosition p pre pos)) pre = Return res /\
    withinTolerance pos res.
Proof.
  destruct (set_get_RootJointPosition_exact p r pre pos c Hrobot Hchild Hprefix)
    as [Hset Hget].
  split; [exact Hset |].
  exists pos. split; [exact Hget | apply withinTolerance_refl].
Qed.

Lemma set_get_RootJointPosition_roundtrip_witness :
  snd (setRootJointPosition Samples.withPr2 "pr2" Samples.pose) = Return tt.
Proof.
  refine (proj1 (set_get_RootJointPosition_roundtrip Samples.withPr2
                   Samples.withPr2Robot "pr2" Samples.pose
                   (mkJoint "pr2/base_joint" JointSO3 (Some "pr2/base_link")
                      setIdentity [])
                   eq_refl _ eq_refl)).
  simpl. left. reflexivity.
Defined.

(** ** The wire transform *)



(** Inversion of the two guards every registering operation starts with. *)
Lemma guards_Return (p : ProblemSolver) (linkName : string) :
  forall A (k : Device -> JointPtr -> ProblemSolver * result A) q (a : A),
    match getRobotOrThrow p with
    | Raise e => (p, Raise e)
    | Return robot =>
        match getJointByBodyNameOrThrow p linkName with
        | Raise e => (p, Raise e)
        | Return joint => k robot joint
        end
    end = (q, Return a) ->
    exists r j,
      robot p = Some r /\ getJointByBodyName r linkName = Some j /\
      k r j = (q, Return a).
Proof.
  intros A k q a.
  unfold getJointByBodyNameOrThrow, getRobotOrThrow.
  destruct (robot p) as [r|]; [| discriminate].
  destruct (getJointByBodyName r linkName) as [j|] eqn:Hj; [| discriminate].
  intros H. exists r, j. split; [reflexivity |]. split; [exact Hj | exact H].
Qed.






(** ** [addGripper] and the bodies in collision *)

(** With a lookup that hands back null on a miss, [addGripperWith] is
    the [addGripper] above. *)
Lemma resolveBodiesWith_null (r : Device) (names : list string) :
  resolveBodiesWith MissReturnsNull r names = Return (resolveBodies r names).
Proof.
  induction names as [|n names IH]; simpl.
  - reflexivity.
  - rewrite IH. unfold Device_getJointByBodyName.
    now destruct (getJointByBodyName r n).
Qed.

Lemma addGripperWith_null (p : ProblemSolver) (linkName gripperName : string)
    (pos : Transform_) (names : list string) :
  addGripperWith MissReturnsNull p linkName gripperName pos names
  = addGripper p linkName gripperName pos names.
Proof.
  unfold addGripperWith, addGripper, getJointByBodyNameOrThrowWith,
    getJointByBodyNameOrThrow, getRobotOrThrow, Device_getJointByBodyName.
  destruct (robot p) as [r|]; [| reflexivity].
  destruct (getJointByBodyName r linkName) as [j|]; [| reflexivity].
  now rewrite resolveBodiesWith_null.
Qed.





(** ** The problem registry *)

Import Registry.

Lemma selectProblem_present (m : ProblemSolverMap) (n : string) (ptr : Ptr) :
  map_ m !! n = Some ptr -> selectProblem n m = (select ptr m, false).
Proof. intros H. unfold selectProblem. now rewrite H. Qed.

Lemma selectProblem_absent (m : ProblemSolverMap) (n : string) :
  map_ m !! n = None ->
  selectProblem n m
  = (mkProblemSolverMap (sessions m ++ [ProblemSolver_create])
       (<[n := length (sessions m)]> (map_ m)) (Some (length (sessions m))),
     true).
Proof. intros H. unfold selectProblem. now rewrite H. Qed.

(** A registered name stays registered, for the same session. *)
Lemma selectProblem_keeps_name (m : ProblemSolverMap) (k n : string) (ptr : Ptr) :
  map_ m !! n = Some ptr -> map_ (fst (selectProblem k m)) !! n = Some ptr.
Proof.
  intros H. destruct (map_ m !! k) as [q|] eqn:E.
  - now rewrite (selectProblem_present m k q E).
  - rewrite (selectProblem_absent m k E). simpl.
    rewrite lookup_insert_ne; [exact H | congruence].
Qed.

Lemma selectProblems_keeps_name (names : list string) (m : ProblemSolverMap)
    (n : string) (ptr : Ptr) :
  map_ m !! n = Some ptr -> map_ (selectProblems names m) !! n = Some ptr.
Proof.
  revert m. induction names as [|k names IH]; intros m H; simpl.
  - exact H.
  - apply IH. now apply selectProblem_keeps_name.
Qed.

(** The sessions already allocated are never altered by a selection. *)
Lemma selectProblem_keeps_session (m : ProblemSolverMap) (k : string) (i : nat)
    (s : ProblemSolver) :
  sessions m !! i = Some s -> sessions (fst (selectProblem k m)) !! i = Some s.
Proof.
  intros H. destruct (map_ m !! k) as [q|] eqn:E.
  - now rewrite (selectProblem_present m k q E).
  - rewrite (selectProblem_absent m k E). simpl. now apply lookup_app_l_Some.
Qed.

(** C2.  [selectProblem n] returns [true] exactly when [n] is not in the
    registry; it then registers an empty session under [n] and makes it
    current, without altering the sessions that exist.  When [n] is
    present the call returns [false], makes its session current and
    changes neither the mapping nor any session.  Hence, after a first
    call with [n] and whatever selections follow, a call with [n]
    returns [false], selects the session of the first call and leaves
    mapping and sessions as they are. *)
Theorem selectProblem_first_use (m : ProblemSolverMap) (n : string) :
  let m1 := fst (selectProblem n m) in
  (snd (selectProblem n m) = true <-> map_ m !! n = None) /\
  (map_ m !! n = None ->
     map_ m1 !! n = Some (length (sessions m)) /\
     selected m1 = Some (length (sessions m)) /\
     current m1 = Some ProblemSolver_create /\
     (forall i s, sessions m !! i = Some s -> sessions m1 !! i = Some s)) /\
  (forall ptr, map_ m !! n = Some ptr ->
     snd (selectProblem n m) = false /\
     selected m1 = Some ptr /\ map_ m1 = map_ m /\ sessions m1 = sessions m) /\
  (forall names,
     let m2 := selectProblems names m1 in
     let m3 := fst (selectProblem n m2) in
     snd (selectProblem n m2) = false /\
     is_Some (map_ m1 !! n) /\ selected m3 = map_ m1 !! n /\
     map_ m3 = map_ m2 /\ sessions m3 = sessions m2).
Proof.
  intros m1. subst m1.
  assert (Hreg : exists ptr, map_ (fst (selectProblem n m)) !! n = Some ptr).
  { destruct (map_ m !! n) as [q|] eqn:E.
    - exists q. now rewrite (selectProblem_present m n q E).
    - exists (length (sessions m)). rewrite (selectProblem_absent m n E). simpl.
      apply lookup_insert_eq. }
  split; [| split; [| split]].
  - destruct (map_ m !! n) as [q|] eqn:E.
    + rewrite (selectProblem_present m n q E). simpl. split; discriminate.
    + rewrite (selectProblem_absent m n E). simpl. split; reflexivity.
  - intros E. rewrite (selectProblem_absent m n E). simpl.
    split; [apply lookup_insert_eq |]. split; [reflexivity |].
    split.
    + unfold current. simpl. now apply list_lookup_middle.
    + intros i s Hs. now apply lookup_app_l_Some.
  - intros ptr E. rewrite (selectProblem_present m n ptr E). simpl. auto.
  - intros names m2 m3. subst m2 m3.
    destruct Hreg as [ptr Hptr].
    pose proof (selectProblems_keeps_name names _ n ptr Hptr) as H2.
    rewrite (selectProblem_present _ n ptr H2). simpl.
    rewrite Hptr. split; [reflexivity |]. split; [now exists ptr |]. auto.
Qed.

Lemma selectProblem_first_use_witness :
  snd (selectProblem "rbprm"
         (selectProblems ["default"; "other"]
            (fst (selectProblem "rbprm" (mkProblemSolverMap [] ∅ None)))))
  = false.
Proof.
  exact (proj1 (proj2 (proj2 (proj2
           (selectProblem_first_use (mkProblemSolverMap [] ∅ None) "rbprm")))
           ["default"; "other"])).
Defined.

(** ** The entry point *)

Import Main.

Lemma selectProblem_reservedApart (ptr : Ptr) (m : ProblemSolverMap) (k : string) :
  k <> "rbprm" -> reservedApart ptr m ->
  reservedApart ptr (fst (selectProblem k m)).
Proof.
  intros Hk (Hname & Hsel & Hlen).
  destruct (map_ m !! k) as [q|] eqn:E.
  - rewrite (selectProblem_present m k q E). simpl.
    split; [exact Hname |]. split; [| exact Hlen].
    simpl. intros [= ->]. apply Hk. now apply Hname.
  - rewrite (selectProblem_absent m k E). simpl.
    split; [| split].
    + simpl. intros k' Hk'. destruct (decide (k = k')) as [<- | Hne].
      * rewrite lookup_insert_eq in Hk'. inversion Hk'. lia.
      * rewrite lookup_insert_ne in Hk' by exact Hne. now apply Hname.
    + simpl. intros [= Heq]. lia.
    + simpl. rewrite length_app. simpl. lia.
Qed.

Lemma selectProblems_reservedApart (ptr : Ptr) (names : list string)
    (m : ProblemSolverMap) :
  ~ In "rbprm" names -> reservedApart ptr m ->
  reservedApart ptr (selectProblems names m).
Proof.
  revert m. induction names as [|k names IH]; intros m Hnot Hinv; simpl.
  - exact Hinv.
  - apply IH.
    + intros Hin. apply Hnot. now right.
    + apply selectProblem_reservedApart; [| exact Hinv].
      intros ->. apply Hnot. now left.
Qed.

(** The registry [main] enters the request loop with, when the RBPRM
    block is compiled in. *)
Lemma startup_problemSolverMap (wbs : bool) (initialName : string) :
  problemSolverMap (startup (mkFlags wbs true) initialName)
  = mkProblemSolverMap [ProblemSolver_create; ProblemSolver_create]
      (<["rbprm" := 1]> (<[initialName := 0]> ∅)) (Some 0).
Proof. destruct wbs; reflexivity. Qed.

Lemma startup_bindings (wbs : bool) (initialName : string) :
  binding RbprmServer (startup (mkFlags wbs true) initialName)
    = Some (ToProblemSolver 1) /\
  binding ManipulationServer (startup (mkFlags wbs true) initialName)
    = Some ToProblemSolverMap /\
  binding CorbaServer (startup (mkFlags wbs true) initialName)
    = Some ToProblemSolverMap.
Proof. destruct wbs; repeat split. Qed.

(** C9.  With the RBPRM module compiled in, [main] reaches the request
    loop with a session of its own making registered under "rbprm" and
    the RBPRM server bound to that session directly, while the
    manipulation server resolves its session through the registry.  The
    selected session is still the initial one; whatever problems a
    client selects, as long as "rbprm" is not among them, the current
    session is never the reserved one, and selecting "rbprm" makes it
    current without creating anything. *)
Theorem rbprm_session_reserved (flags : Flags) (initialName : string)
    (Hrbprm : HPP_MANIPULATION_HAS_RBPRM flags = true) :
  let pr := startup flags initialName in
  let m := problemSolverMap pr in
  (main flags initialName = processRequest pr /\
   processingRequests pr = false /\
   processingRequests (main flags initialName) = true /\
   problemSolverMap (main flags initialName) = m) /\
  (map_ m !! "rbprm" = Some 1 /\
   sessions m !! 1 = Some ProblemSolver_create /\
   binding RbprmServer pr = Some (ToProblemSolver 1) /\
   binding ManipulationServer pr = Some ToProblemSolverMap) /\
  (selected m = Some 0 /\
   forall names, ~ In "rbprm" names ->
     selected (selectProblems names m) <> Some 1) /\
  selectProblem "rbprm" m = (select 1 m, false).
Proof.
  intros pr m. subst pr m.
  destruct flags as [wbs rbprm]. simpl in Hrbprm. subst rbprm.
  destruct (startup_bindings wbs initialName) as (Hb1 & Hb2 & _).
  pose proof (startup_problemSolverMap wbs initialName) as Hm.
  split; [| split; [| split]].
  - split; [reflexivity |]. split; [now destruct wbs |].
    split; reflexivity.
  - rewrite Hm. simpl. split; [apply lookup_insert_eq |].
    split; [reflexivity |]. split; [exact Hb1 | exact Hb2].
  - rewrite Hm. simpl. split; [reflexivity |].
    intros names Hnot.
    apply (selectProblems_reservedApart 1 names); [exact Hnot |].
    split; [| split].
    + simpl. intros k Hk. destruct (decide ("rbprm" = k)) as [<- | Hne].
      * reflexivity.
      * rewrite lookup_insert_ne in Hk by exact Hne.
        destruct (decide (initialName = k)) as [<- | Hne'].
        -- rewrite lookup_insert_eq in Hk. discriminate.
        -- rewrite lookup_insert_ne in Hk by exact Hne'.
           rewrite lookup_empty in Hk. discriminate.
    + simpl. discriminate.
    + simpl. lia.
  - apply selectProblem_present. rewrite Hm. simpl. apply lookup_insert_eq.
Qed.

Lemma rbprm_session_reserved_witness :
  HPP_MANIPULATION_HAS_RBPRM (mkFlags false true) = true /\
  map_ (problemSolverMap (startup (mkFlags false true) "default")) !! "rbprm" = Some 1.
Proof.
  split; [reflexivity |].
  exact (proj1 (proj1 (proj2
           (rbprm_session_reserved (mkFlags false true) "default" eq_refl)))).
Defined.

(** ** The Problem interface *)

Import ProblemImpl.

Lemma append_nonempty_ne (g s : string) : s <> "" -> g <> g ++ s.
Proof.
  intros Hs. induction g as [|a g IH].
  - intros E. apply Hs. symmetry. exact E.
  - intros E. change (String a g = String a (g ++ s)) in E.
    injection E as E. now apply IH.
Qed.

(** What a successful [createGrasp] has found and done. *)
Lemma createGrasp_Return (p p' : ProblemSolver) (g gripper handle : string) :
  createGrasp p g gripper handle = (p', Return tt) ->
  exists r gr h,
    robot p = Some r /\ grippers r !! gripper = Some gr /\
    handles r !! handle = Some h /\
    p' = addNumericalConstraint (g ++ "/complement")
           (mkConstraint gripper handle (freeDof (Handle_kind h)))
           (addNumericalConstraint g
              (mkConstraint gripper handle (map negb (freeDof (Handle_kind h)))) p).
Proof.
  unfold createGrasp.
  destruct (robot p) as [r|]; [| discriminate].
  destruct (grippers r !! gripper) as [gr|] eqn:Hg;
    destruct (handles r !! handle) as [h|] eqn:Hh; try discriminate.
  intros [= <-]. exists r, gr, h. auto.
Qed.

(** C3.  A successful [createGrasp (g, gripper, handle)] on an axial
    handle adds to the constraint map of the session the names [g] and
    [g/complement] and no other: [g] is the pose constraint that leaves
    the rotation about the x-axis of the handle free, [g/complement]
    the constraint on that rotation alone, and every other name keeps
    the entry it had. *)
Theorem createGrasp_axial_names (p p' : ProblemSolver) (g gripper handle : string)
    (r : Device) (h : Handle)
    (Hrobot : robot p = Some r)
    (Hhandle : handles r !! handle = Some h)
    (Haxial : Handle_kind h = AxialHandle)
    (Hok : createGrasp p g gripper handle = (p', Return tt)) :
  dom (numericalConstraints p')
    = dom (numericalConstraints p) ∪ {[ g; g ++ "/complement" ]} /\
  numericalConstraints p' !! g
    = Some (mkConstraint gripper handle [true; true; true; false; true; true]) /\
  numericalConstraints p' !! (g ++ "/complement")
    = Some (mkConstraint gripper handle [false; false; false; true; false; false]) /\
  (forall n, n <> g -> n <> g ++ "/complement" ->
     numericalConstraints p' !! n = numericalConstraints p !! n).
Proof.
  destruct (createGrasp_Return p p' g gripper handle Hok)
    as (r0 & gr & h0 & Hr0 & _ & Hh0 & ->).
  assert (r0 = r) by congruence. subst r0.
  assert (h0 = h) by congruence. subst h0.
  rewrite Haxial. simpl.
  assert (Hne : g <> g ++ "/complement")
    by (apply append_nonempty_ne; discriminate).
  split; [| split; [| split]].
  - rewrite !dom_insert_L. apply set_eq. intros x.
    rewrite !elem_of_union, !elem_of_singleton. tauto.
  - rewrite lookup_insert_ne by congruence. apply lookup_insert_eq.
  - apply lookup_insert_eq.
  - intros n H1 H2. rewrite !lookup_insert_ne by congruence. reflexivity.
Qed.

Lemma createGrasp_axial_names_witness :
  numericalConstraints
    (fst (createGrasp Samples.withGripperAndHandle "g" "pr2/gripper" "box/handle"))
    !! "g/complement"
  = Some (mkConstraint "pr2/gripper" "box/handle"
            [false; false; false; true; false; false]).
Proof.
  exact (proj1 (proj2 (proj2
           (createGrasp_axial_names Samples.withGripperAndHandle _
              "g" "pr2/gripper" "box/handle" _ _
              eq_refl eq_refl eq_refl eq_refl)))).
Defined.

(** C4.  The three outcomes of [buildAndProjectPath].  If the path
    cannot be built, both indices are -1, the result is [false] and the
    path list is as before.  If it is built but cannot be projected,
    [indexNotProj] is the index of the built path, which has been
    appended, [indexProj] is -1 and the result is [false].  If both
    steps succeed the result is [true], the two indices are distinct
    valid indices of the built and of the projected path, and the path
    list has grown by exactly these two entries. *)
Theorem buildAndProjectPath_outcomes
    (Edge_build : ID -> Configuration -> Configuration -> option Path)
    (PathProjector_apply : ID -> Path -> option Path)
    (p : ProblemSolver) (IDedge : ID) (qb qe : Configuration) :
  let out := buildAndProjectPath Edge_build PathProjector_apply p IDedge qb qe in
  let p' := fst out in
  let ok := fst (fst (snd out)) in
  let indexNotProj := snd (fst (snd out)) in
  let indexProj := snd (snd out) in
  (Edge_build IDedge qb qe = None ->
     indexNotProj = (-1)%Z /\ indexProj = (-1)%Z /\ ok = false /\
     paths p' = paths p) /\
  (forall path,
     Edge_build IDedge qb qe = Some path ->
     PathProjector_apply IDedge path = None ->
     (0 <= indexNotProj)%Z /\
     paths p' !! Z.to_nat indexNotProj = Some path /\
     indexProj = (-1)%Z /\ ok = false /\
     paths p' = (paths p ++ [path])%list) /\
  (forall path projPath,
     Edge_build IDedge qb qe = Some path ->
     PathProjector_apply IDedge path = Some projPath ->
     ok = true /\
     (0 <= indexNotProj)%Z /\ (0 <= indexProj)%Z /\ indexNotProj <> indexProj /\
     paths p' !! Z.to_nat indexNotProj = Some path /\
     paths p' !! Z.to_nat indexProj = Some projPath /\
     paths p' = (paths p ++ [path; projPath])%list).
Proof.
  intros out p' ok indexNotProj indexProj.
  subst out p' ok indexNotProj indexProj. unfold buildAndProjectPath.
  split; [| split].
  - intros Hb. rewrite Hb. simpl. auto.
  - intros path Hb Hp. rewrite Hb, Hp. simpl.
    split; [lia |]. rewrite Nat2Z.id.
    split; [now apply list_lookup_middle |]. auto.
  - intros path projPath Hb Hp. rewrite Hb, Hp. simpl.
    rewrite !Nat2Z.id, length_app. simpl.
    split; [reflexivity |]. split; [lia |]. split; [lia |]. split; [lia |].
    split; [| split].
    + apply lookup_app_l_Some. now apply list_lookup_middle.
    + apply list_lookup_middle. rewrite length_app. simpl. lia.
    + now rewrite <- app_assoc.
Qed.

Lemma buildAndProjectPath_outcomes_witness :
  fst (fst (snd (buildAndProjectPath Samples.buildStraight Samples.projectAlways
                   ProblemSolver_create 3%Z [] [])))
  = true.
Proof.
  exact (proj1 (proj2 (proj2
    (buildAndProjectPath_outcomes Samples.buildStraight Samples.projectAlways
       ProblemSolver_create 3%Z [] [])) _ _ eq_refl eq_refl)).
Defined.

(** * Further properties of the robot interface *)

(** ** The codec *)

(** X1.  Decoding and encoding are inverse of each other, both ways:
    no information is lost or reordered between the wire tuple and the
    stored transform. *)
Theorem wire_codec_inverse (pos : Transform_) (T : Transform3f) :
  encodeTransform (decodeTransform pos) = pos /\
  decodeTransform (encodeTransform T) = T.
Proof.
  split.
  - destruct pos as [a0 a1 a2 a3 a4 a5 a6]. reflexivity.
  - destruct T as [[x y z w] [a b c]]. reflexivity.
Qed.

(** ** Model loading, when the parser throws *)

(** X2.  When the parser of an insert operation throws, the client
    receives the fault carrying the message of the exception and
    [resetProblem] is not called: the planning state, the obstacles, the
    constraints and the paths are as before.  The robot is nevertheless
    on the session, created if it was absent, in the state the parser
    left it.  Conversely the operation fails only when its parser
    throws. *)
Theorem insert_operation_failure
    (op : ModelLoader -> ProblemSolver -> ModelArgs -> ProblemSolver * result unit)
    (load : ModelLoader) (p : ProblemSolver) (a : ModelArgs) (e : exn)
    (Hop : In op insertOperations)
    (Hfail : snd (op load p a) = Raise e) :
  let q := fst (op load p a) in
  let r := snd (getOrCreateRobot p) in
  snd (load r [] a) = Some (match e with StdException w | HppError w => w end) /\
  (exists what, e = HppError what) /\
  robot q = Some (fst (load r [] a)) /\
  resetCount q = resetCount p /\
  activeConstraints q = activeConstraints p /\ targetState q = targetState p /\
  obstacles q = obstacles p /\ contactSurfaces q = contactSurfaces p /\
  numericalConstraints q = numericalConstraints p /\ paths q = paths p.
Proof.
  intros q r. subst q r.
  rewrite (insertOperations_insertModel op Hop) in *.
  unfold insertModel in *.
  unfold getOrCreateRobot in *.
  destruct (robot p) as [r0|] eqn:Hr; simpl in *.
  - destruct (load r0 [] a) as [r' [what|]]; simpl in *; [| discriminate].
    injection Hfail as <-.
    split; [reflexivity |]. split; [now exists what |]. repeat split.
  - destruct (load _ [] a) as [r' [what|]]; simpl in *; [| discriminate].
    injection Hfail as <-.
    split; [reflexivity |]. split; [now exists what |]. repeat split.
Qed.

Lemma insert_operation_failure_witness :
  robot Samples.afterFailedLoad
  = Some (snd (getOrCreateRobot ProblemSolver_create)) /\
  resetCount Samples.afterFailedLoad = 0.
Proof.
  assert (Hop : In insertRobotModel insertOperations) by (simpl; auto).
  pose proof (insert_operation_failure insertRobotModel Samples.loadNothing
                ProblemSolver_create Samples.pr2 _ Hop eq_refl)
    as (_ & _ & Hr & Hc & _).
  split; [exact Hr | exact Hc].
Defined.

(** ** Loading an environment *)

Lemma fold_addObstacle_frame (f : CollisionObject -> CollisionObject)
    (l : list CollisionObject) (p : ProblemSolver) :
  let p' := fold_left (fun acc o => addObstacle (f o) acc) l p in
  contactSurfaces p' = contactSurfaces p /\
  numericalConstraints p' = numericalConstraints p /\ paths p' = paths p.
Proof.
  revert p. induction l as [|o l IH]; intros p; simpl.
  - auto.
  - destruct (IH (addObstacle (f o) p)) as (H1 & H2 & H3).
    simpl in *. now rewrite H1, H2, H3.
Qed.

Lemma fold_add_TriangleList_frame (prefix : string)
    (l : list (string * TriangleList)) (p : ProblemSolver) :
  let p' :=
    fold_left (fun acc it => add_TriangleList (prefix ++ fst it) (snd it) acc) l p in
  numericalConstraints p' = numericalConstraints p /\ paths p' = paths p.
Proof.
  revert p. induction l as [|it l IH]; intros p; simpl.
  - auto.
  - destruct (IH (add_TriangleList (prefix ++ fst it) (snd it) p)) as (H1 & H2).
    simpl in *. now rewrite H1, H2.
Qed.

(** A key that no entry of the list produces keeps its contact surface. *)
Lemma fold_add_TriangleList_other (prefix : string)
    (l : list (string * TriangleList)) (p : ProblemSolver) (key : string) :
  (forall it, In it l -> key <> prefix ++ fst it) ->
  contactSurfaces
    (fold_left (fun acc it => add_TriangleList (prefix ++ fst it) (snd it) acc) l p)
    !! key
  = contactSurfaces p !! key.
Proof.
  revert p. induction l as [|it l IH]; intros p Hkey; simpl.
  - reflexivity.
  - rewrite IH by (intros it' Hin; apply Hkey; now right).
    simpl. apply lookup_insert_ne.
    intros Heq. apply (Hkey it); [now left | now symmetry].
Qed.

(** With distinct keys, each entry of the list ends up under its
    prefixed key. *)
Lemma fold_add_TriangleList_lookup (prefix : string)
    (l : list (string * TriangleList)) (p : ProblemSolver)
    (k : string) (t : TriangleList) :
  List.NoDup (map fst l) -> In (k, t) l ->
  contactSurfaces
    (fold_left (fun acc it => add_TriangleList (prefix ++ fst it) (snd it) acc) l p)
    !! (prefix ++ k)
  = Some t.
Proof.
  revert p. induction l as [|it l IH]; intros p Hnd Hin; simpl.
  - destruct Hin.
  - inversion Hnd as [|x xs Hnotin Hnd']; subst.
    destruct Hin as [-> | Hin].
    + rewrite fold_add_TriangleList_other.
      * simpl. apply lookup_insert_eq.
      * intros it' Hin' Heq. apply Hnotin.
        apply (inj (String.append prefix)) in Heq. simpl in Heq.
        simpl. rewrite Heq. apply in_map. exact Hin'.
    + now apply IH.
Qed.

(** X3.  [loadEnvironmentModel] either fails with the message of the
    parser, leaving the session exactly as it was, or returns normally
    after appending to the obstacles of the session one collision object
    per collision object of the environment, in the same order, with the
    same geometry and transform and the name prefixed by [prefix].  The
    constraints and the paths of the session are not touched. *)
Theorem loadEnvironmentModel_outcome (load : EnvironmentLoader) (p : ProblemSolver)
    (package envModelName urdf srdf prefix : string) :
  let out := loadEnvironmentModel load p package envModelName urdf srdf prefix in
  let object := fst (load package envModelName urdf srdf) in
  (forall what,
     snd (load package envModelName urdf srdf) = Some what ->
     out = (p, Raise (HppError what))) /\
  (snd (load package envModelName urdf srdf) = None ->
     snd out = Return tt /\
     obstacles (fst out)
     = (obstacles p
        ++ map (fun o =>
                  mkCollisionObject (CollisionObject_geometry o)
                    (CollisionObject_transform o)
                    (prefix ++ CollisionObject_name o))
             (collisionObjects object))%list /\
     numericalConstraints (fst out) = numericalConstraints p /\
     paths (fst out) = paths p).
Proof.
  intros out object. subst out object. unfold loadEnvironmentModel.
  destruct (load package envModelName urdf srdf) as [object [what|]]; simpl.
  - split; [| discriminate]. now intros w [= <-].
  - split; [discriminate |]. intros _. split; [reflexivity |].
    pose (f := fun itObj : CollisionObject =>
                 CollisionObject_create (CollisionObject_geometry itObj)
                   (CollisionObject_transform itObj)
                   (prefix ++ CollisionObject_name itObj)).
    pose (p1 := fold_left (fun acc o => addObstacle (f o) acc)
                  (collisionObjects object) p).
    destruct (fold_addObstacle_robot f (collisionObjects object) p)
      as (_ & _ & _ & _ & Hobs).
    destruct (fold_addObstacle_frame f (collisionObjects object) p)
      as (_ & Hc & Hp).
    destruct (fold_add_TriangleList_robot prefix (triangleLists object) p1)
      as (_ & _ & _ & _ & Hobs').
    destruct (fold_add_TriangleList_frame prefix (triangleLists object) p1)
      as (Hc' & Hp').
    subst p1 f. cbv beta zeta in *.
    rewrite Hobs', Hc', Hp', Hobs, Hc, Hp. auto.
Qed.

Lemma loadEnvironmentModel_outcome_witness :
  map CollisionObject_name
    (obstacles
       (fst (loadEnvironmentModel Samples.loadKitchen Samples.withPr2
               "iai_maps" "kitchen_area" "" "" "kitchen/")))
  = ["kitchen/table"].
Proof.
  pose proof (proj2 (loadEnvironmentModel_outcome Samples.loadKitchen Samples.withPr2
                       "iai_maps" "kitchen_area" "" "" "kitchen/") eq_refl)
    as (_ & Hobs & _).
  rewrite Hobs. reflexivity.
Defined.

(** X4.  After a successful [loadEnvironmentModel] whose environment
    declares its contact surfaces under distinct names, each surface is
    registered on the session under its name prefixed by [prefix], and
    every key that is not such a prefixed name keeps the surface it had
    (or remains free). *)
Theorem loadEnvironmentModel_contact_surfaces (load : EnvironmentLoader)
    (p : ProblemSolver) (package envModelName urdf srdf prefix : string)
    (object : EnvironmentDevice)
    (Hload : load package envModelName urdf srdf = (object, None))
    (Hkeys : List.NoDup (map fst (triangleLists object))) :
  let q := fst (loadEnvironmentModel load p package envModelName urdf srdf prefix) in
  (forall k t, In (k, t) (triangleLists object) ->
     contactSurfaces q !! (prefix ++ k) = Some t) /\
  (forall key,
     (forall k, In k (map fst (triangleLists object)) -> key <> prefix ++ k) ->
     contactSurfaces q !! key = contactSurfaces p !! key).
Proof.
  intros q. subst q. unfold loadEnvironmentModel. rewrite Hload. simpl.
  pose (f := fun itObj : CollisionObject =>
               CollisionObject_create (CollisionObject_geometry itObj)
                 (CollisionObject_transform itObj)
                 (prefix ++ CollisionObject_name itObj)).
  destruct (fold_addObstacle_frame f (collisionObjects object) p) as (Hcs & _).
  subst f. cbv beta zeta in Hcs. split.
  - intros k t Hin. now apply fold_add_TriangleList_lookup.
  - intros key Hkey. rewrite fold_add_TriangleList_other.
    + now rewrite Hcs.
    + intros it Hin. apply Hkey. now apply in_map.
Qed.

Lemma loadEnvironmentModel_contact_surfaces_witness :
  contactSurfaces
    (fst (loadEnvironmentModel Samples.loadKitchen ProblemSolver_create
            "iai_maps" "kitchen_area" "" "" "kitchen/"))
    !! "kitchen/table_top"
  = Some [].
Proof.
  assert (Hkeys : List.NoDup (map fst [("table_top", @nil (Vec3f * Vec3f * Vec3f))])).
  { constructor; [intros [] | constructor]. }
  exact (proj1 (loadEnvironmentModel_contact_surfaces Samples.loadKitchen
                  ProblemSolver_create "iai_maps" "kitchen_area" "" "" "kitchen/"
                  _ eq_refl Hkeys)
           "table_top" [] (or_introl eq_refl)).
Defined.

(** ** Selecting a child of the root by prefix *)

(** [name.compare (0, n.size (), n) == 0] holds exactly when [name]
    begins with [n]. *)
Lemma startsWith_spec (name n : string) :
  startsWith name n = true <-> exists rest, name = n ++ rest.
Proof.
  unfold startsWith. revert name.
  induction n as [|a n IH]; intros name.
  - split; [intros _; now exists name | intros _; now destruct name].
  - destruct name as [|b name].
    + split; [discriminate | intros [rest H]; discriminate H].
    + change (String.prefix (String a n) (String b name))
        with (if Ascii.ascii_dec a b then String.prefix n name else false).
      destruct (Ascii.ascii_dec a b) as [<- | Hne].
      * rewrite IH. split; intros [rest H]; exists rest.
        -- change (String a name = String a (n ++ rest)). now rewrite H.
        -- change (String a name = String a (n ++ rest)) in H. now injection H.
      * split; [discriminate |].
        intros [rest H]. change (String b name = String a (n ++ rest)) in H.
        injection H as H1 H2. congruence.
Qed.

Lemma findChild_is_Some (n : string) (cs : list Joint) :
  (exists i, findChild n 0 cs = Some i) <->
  (exists c, In c cs /\ startsWith (Joint_name c) n = true).
Proof.
  split.
  - intros [i Hi].
    destruct (findChild_Some n cs 0 i Hi) as (j & c & _ & Hc & Hs & _).
    exists c. split; [| exact Hs].
    apply list_elem_of_In, list_elem_of_lookup. now exists j.
  - intros (c & Hin & Hs).
    destruct (findChild n 0 cs) as [i|] eqn:E; [now exists i |].
    pose proof (findChild_None n cs 0 E c Hin). congruence.
Qed.

(** X5.  On a session that has a robot, [getRootJointPosition (pre)]
    returns a tuple exactly when some immediate child of the root joint
    has a name beginning with [pre], and raises the fault "Root of
    subtree with the provided prefix not found" exactly when none has.
    When it returns, the tuple is the encoding of the position of the
    first such child: no child before it has a name beginning with
    [pre]. *)
Theorem getRootJointPosition_found_iff (p : ProblemSolver) (r : Device)
    (pre : string) (Hrobot : robot p = Some r) :
  let cs := Joint_childJoints (rootJoint r) in
  ((exists res, getRootJointPosition p pre = Return res) <->
   (exists c rest, In c cs /\ Joint_name c = pre ++ rest)) /\
  (getRootJointPosition p pre
     = Raise (HppError "Root of subtree with the provided prefix not found") <->
   (forall c rest, In c cs -> Joint_name c <> pre ++ rest)) /\
  (forall res, getRootJointPosition p pre = Return res ->
     exists i c,
       cs !! i = Some c /\ res = encodeTransform (Joint_positionInParentFrame c) /\
       (exists rest, Joint_name c = pre ++ rest) /\
       forall j c' rest, j < i -> cs !! j = Some c' -> Joint_name c' <> pre ++ rest).
Proof.
  intros cs. subst cs.
  unfold getRootJointPosition, getRobotOrThrow. rewrite Hrobot.
  destruct (findChild pre 0 (Joint_childJoints (rootJoint r))) as [i|] eqn:Hf.
  - destruct (findChild_Some pre _ 0 i Hf) as (j & c & Hi & Hc & Hs & Hfirst).
    simpl in Hi. subst j. rewrite Hc.
    assert (Hin : In c (Joint_childJoints (rootJoint r))).
    { apply list_elem_of_In, list_elem_of_lookup. now exists i. }
    apply startsWith_spec in Hs. destruct Hs as [rest Hrest].
    split; [| split].
    + split; [intros _; now exists c, rest | intros _; eauto].
    + split; [discriminate |]. intros Hno. now destruct (Hno c rest Hin).
    + intros res [= <-]. exists i, c.
      split; [exact Hc |]. split; [reflexivity |]. split; [now exists rest |].
      intros j c' rest' Hlt Hc' Hname.
      pose proof (Hfirst j c' Hlt Hc') as Hfalse.
      assert (startsWith (Joint_name c') pre = true)
        by (apply startsWith_spec; now exists rest').
      congruence.
  - pose proof (findChild_None pre _ 0 Hf) as Hnone.
    split; [| split].
    + split; [intros [res H]; discriminate H |].
      intros (c & rest & Hin & Hname).
      assert (startsWith (Joint_name c) pre = true)
        by (apply startsWith_spec; now exists rest).
      rewrite (Hnone c Hin) in H. discriminate.
    + split; [| reflexivity]. intros _ c rest Hin Hname.
      assert (startsWith (Joint_name c) pre = true)
        by (apply startsWith_spec; now exists rest).
      rewrite (Hnone c Hin) in H. discriminate.
    + intros res H. discriminate H.
Qed.

Lemma getRootJointPosition_found_iff_witness :
  exists res, getRootJointPosition Samples.withPr2AndBox "box" = Return res.
Proof.
  apply (proj1 (getRootJointPosition_found_iff Samples.withPr2AndBox
                  Samples.withPr2AndBoxRobot "box" eq_refl)).
  exists (mkJoint "box/base_joint" JointSO3 (Some "box/base_link") setIdentity []),
         "/base_joint".
  split; [simpl; auto | reflexivity].
Defined.

(** X6.  The empty prefix matches every name: when the root has at
    least one child, [getRootJointPosition ("")] returns the position
    of the first child, and [setRootJointPosition ("", pos)] moves that
    child; when the root has no child both raise the subtree fault. *)
Theorem empty_prefix_selects_first_child (p : ProblemSolver) (r : Device)
    (pos : Transform_) (Hrobot : robot p = Some r) :
  match Joint_childJoints (rootJoint r) with
  | c :: _ =>
      getRootJointPosition p ""
        = Return (encodeTransform (Joint_positionInParentFrame c)) /\
      snd (setRootJointPosition p "" pos) = Return tt /\
      getRootJointPosition (fst (setRootJointPosition p "" pos)) "" = Return pos
  | [] =>
      getRootJointPosition p ""
        = Raise (HppError "Root of subtree with the provided prefix not found") /\
      setRootJointPosition p "" pos
        = (p, Raise (HppError "Root of subtree with the provided prefix not found"))
  end.
Proof.
  destruct (Joint_childJoints (rootJoint r)) as [|c cs] eqn:Hcs.
  - unfold getRootJointPosition, setRootJointPosition, getRobotOrThrow.
    rewrite Hrobot, Hcs. simpl. auto.
  - assert (Hs : startsWith (Joint_name c) "" = true)
      by (apply startsWith_spec; now exists (Joint_name c)).
    split.
    + unfold getRootJointPosition, getRobotOrThrow. rewrite Hrobot, Hcs.
      simpl. now rewrite Hs.
    + apply (set_get_RootJointPosition_exact p r "" pos c Hrobot).
      * rewrite Hcs. now left.
      * exact Hs.
Qed.

Lemma empty_prefix_selects_first_child_witness :
  getRootJointPosition Samples.withPr2AndBox ""
  = Return (encodeTransform setIdentity).
Proof.
  exact (proj1 (empty_prefix_selects_first_child Samples.withPr2AndBox
                  Samples.withPr2AndBoxRobot Samples.pose eq_refl)).
Defined.

(** ** What [setRootJointPosition] changes, and what it does not *)

Lemma Joint_set_childPosition_other (i j : nat) (T : Transform3f) (root : Joint) :
  i <> j ->
  Joint_childJoints (Joint_set_childPosition i T root) !! j
  = Joint_childJoints root !! j.
Proof.
  destruct root as [nm kd b T0 cs]; simpl. intros H.
  now apply list_lookup_alter_ne.
Qed.

Lemma Joint_set_childPosition_twice (i : nat) (T1 T2 : Transform3f) (root : Joint) :
  Joint_set_childPosition i T2 (Joint_set_childPosition i T1 root)
  = Joint_set_childPosition i T2 root.
Proof.
  destruct root as [nm kd b T0 cs]; simpl. f_equal.
  rewrite list_alter_alter_eq. apply list_alter_ext; [| reflexivity].
  intros c _. now destruct c.
Qed.

(** X7.  A successful [setRootJointPosition (pre, pos)] changes one
    thing: the position in parent frame of the first child of the root
    whose name begins with [pre].  That child keeps its name, kind, body
    and subtree; the other children, the root itself, the handles, the
    grippers and the name of the device are as before, and so is the
    rest of the session. *)
Theorem setRootJointPosition_frame (p q : ProblemSolver) (pre : string)
    (pos : Transform_)
    (Hok : setRootJointPosition p pre pos = (q, Return tt)) :
  exists r r' i c,
    robot p = Some r /\ robot q = Some r' /\
    findChild pre 0 (Joint_childJoints (rootJoint r)) = Some i /\
    Joint_childJoints (rootJoint r) !! i = Some c /\
    Joint_childJoints (rootJoint r') !! i
      = Some (mkJoint (Joint_name c) (Joint_kind c) (Joint_linkedBody c)
                (decodeTransform pos) (Joint_childJoints c)) /\
    (forall j, j <> i ->
       Joint_childJoints (rootJoint r') !! j = Joint_childJoints (rootJoint r) !! j) /\
    length (Joint_childJoints (rootJoint r')) = length (Joint_childJoints (rootJoint r)) /\
    (Joint_name (rootJoint r') = Joint_name (rootJoint r) /\
     Joint_kind (rootJoint r') = Joint_kind (rootJoint r) /\
     Joint_linkedBody (rootJoint r') = Joint_linkedBody (rootJoint r) /\
     Joint_positionInParentFrame (rootJoint r')
       = Joint_positionInParentFrame (rootJoint r)) /\
    (Device_name r' = Device_name r /\ handles r' = handles r /\
     grippers r' = grippers r) /\
    (obstacles q = obstacles p /\ contactSurfaces q = contactSurfaces p /\
     numericalConstraints q = numericalConstraints p /\ paths q = paths p /\
     activeConstraints q = activeConstraints p /\ targetState q = targetState p /\
     resetCount q = resetCount p).
Proof.
  destruct (setRootJointPosition_Return p q pre pos Hok)
    as (r & i & c & Hr & Hf & Hc & ->).
  eexists r, _, i, c.
  split; [exact Hr |]. split; [reflexivity |]. split; [exact Hf |].
  split; [exact Hc |]. simpl.
  split.
  { rewrite (Joint_set_childPosition_lookup i _ _ c Hc). now destruct c. }
  split.
  { intros j Hj. apply Joint_set_childPosition_other. congruence. }
  split.
  { destruct (rootJoint r) as [nm kd b T0 cs]; simpl. apply length_alter. }
  split.
  { destruct (rootJoint r) as [nm kd b T0 cs]; simpl. auto. }
  split; repeat split.
Qed.

Lemma setRootJointPosition_frame_witness :
  exists r r' i c,
    robot Samples.withPr2AndBox = Some r /\
    robot (fst (setRootJointPosition Samples.withPr2AndBox "box" Samples.pose))
      = Some r' /\
    findChild "box" 0 (Joint_childJoints (rootJoint r)) = Some i /\
    Joint_childJoints (rootJoint r) !! i = Some c /\
    handles r' = handles r.
Proof.
  destruct (setRootJointPosition_frame Samples.withPr2AndBox _ "box" Samples.pose
              eq_refl)
    as (r & r' & i & c & H1 & H2 & H3 & H4 & _ & _ & _ & _ & (_ & H5 & _) & _).
  exists r, r', i, c. auto.
Defined.

(** X8.  [setRootJointPosition] and [getRootJointPosition] accept the
    same prefixes: on any session, one returns normally exactly when the
    other does, and otherwise they raise the same fault.  A call to
    [setRootJointPosition] that raises leaves the session as it was. *)
Theorem setRootJointPosition_fails_like_get (p : ProblemSolver) (pre : string)
    (pos : Transform_) :
  (snd (setRootJointPosition p pre pos) = Return tt <->
   exists res, getRootJointPosition p pre = Return res) /\
  (forall e, snd (setRootJointPosition p pre pos) = Raise e <->
             getRootJointPosition p pre = Raise e) /\
  (forall e, snd (setRootJointPosition p pre pos) = Raise e ->
             fst (setRootJointPosition p pre pos) = p).
Proof.
  unfold setRootJointPosition, getRootJointPosition, getRobotOrThrow.
  destruct (robot p) as [r|]; simpl.
  - destruct (findChild pre 0 (Joint_childJoints (rootJoint r))) as [i|] eqn:Hf;
      simpl.
    + destruct (findChild_Some pre _ 0 i Hf) as (j & c & Hi & Hc & _).
      simpl in Hi. subst j. rewrite Hc.
      split; [split; eauto |].
      split; [intros e; split; discriminate | discriminate].
    + split; [split; [discriminate | intros [res H]; discriminate H] |].
      split; [intros e; split; intros [= <-]; reflexivity | intros e _; reflexivity].
  - split; [split; [discriminate | intros [res H]; discriminate H] |].
    split; [intros e; split; intros [= <-]; reflexivity | intros e _; reflexivity].
Qed.

(** X9.  The last write wins: writing [pos1] and then [pos2] under the
    same prefix leaves the session exactly as writing [pos2] alone, with
    the same result, and a read that follows returns [pos2]. *)
Theorem setRootJointPosition_last_write_wins (p : ProblemSolver) (pre : string)
    (pos1 pos2 : Transform_) :
  let q1 := fst (setRootJointPosition p pre pos1) in
  setRootJointPosition q1 pre pos2 = setRootJointPosition p pre pos2 /\
  (snd (setRootJointPosition p pre pos2) = Return tt ->
   getRootJointPosition (fst (setRootJointPosition q1 pre pos2)) pre = Return pos2).
Proof.
  intros q1. subst q1.
  assert (Heq : setRootJointPosition (fst (setRootJointPosition p pre pos1)) pre pos2
                = setRootJointPosition p pre pos2).
  { unfold setRootJointPosition, getRobotOrThrow.
    destruct (robot p) as [r|] eqn:Hr; simpl; [| now rewrite Hr].
    destruct (findChild pre 0 (Joint_childJoints (rootJoint r))) as [i|] eqn:Hf;
      simpl.
    - rewrite Joint_set_childPosition_findChild, Hf.
      now rewrite Joint_set_childPosition_twice.
    - now rewrite Hr, Hf. }
  split; [exact Heq |].
  rewrite Heq. intros Hok.
  destruct (setRootJointPosition p pre pos2) as [q res] eqn:Hset.
  simpl in Hok. subst res.
  destruct (setRootJointPosition_Return p q pre pos2 Hset)
    as (r & i & c & Hr & Hf & Hc & ->).
  simpl. unfold getRootJointPosition, getRobotOrThrow. simpl.
  rewrite Joint_set_childPosition_findChild, Hf.
  rewrite (Joint_set_childPosition_lookup i _ _ c Hc).
  now rewrite Joint_position_set, encode_decode.
Qed.

Lemma setRootJointPosition_last_write_wins_witness :
  getRootJointPosition
    (fst (setRootJointPosition
            (fst (setRootJointPosition Samples.withPr2 "pr2"
                    (mkTransform_ 0 0 0 0 0 0 1)))
            "pr2" Samples.pose))
    "pr2"
  = Return Samples.pose.
Proof.
  exact (proj2 (setRootJointPosition_last_write_wins Samples.withPr2 "pr2"
                  (mkTransform_ 0 0 0 0 0 0 1) Samples.pose) eq_refl).
Defined.

(** X10.  Writing the position of one child does not show through a
    prefix that selects another child: if [pre1] and [pre2] select
    different children of the root, [getRootJointPosition (pre2)]
    returns the same tuple before and after
    [setRootJointPosition (pre1, pos)]. *)
Theorem setRootJointPosition_other_child (p : ProblemSolver) (r : Device)
    (pre1 pre2 : string) (pos : Transform_) (i j : nat)
    (Hrobot : robot p = Some r)
    (H1 : findChild pre1 0 (Joint_childJoints (rootJoint r)) = Some i)
    (H2 : findChild pre2 0 (Joint_childJoints (rootJoint r)) = Some j)
    (Hne : i <> j) :
  getRootJointPosition (fst (setRootJointPosition p pre1 pos)) pre2
  = getRootJointPosition p pre2.
Proof.
  unfold setRootJointPosition, getRobotOrThrow. rewrite Hrobot, H1. simpl.
  unfold getRootJointPosition, getRobotOrThrow. rewrite Hrobot. simpl.
  rewrite Joint_set_childPosition_findChild, H2.
  now rewrite (Joint_set_childPosition_other i j _ _ Hne).
Qed.

Lemma setRootJointPosition_other_child_witness :
  getRootJointPosition
    (fst (setRootJointPosition Samples.withPr2AndBox "box" Samples.pose)) "pr2"
  = getRootJointPosition Samples.withPr2AndBox "pr2".
Proof.
  refine (setRootJointPosition_other_child Samples.withPr2AndBox
            Samples.withPr2AndBoxRobot "box" "pr2" Samples.pose 1 0
            eq_refl eq_refl eq_refl _).
  discriminate.
Defined.

(** ** Handles and grippers: faults and frame *)

(** X11.  The operations that need a robot never create one: on a
    session without robot, [getRootJointPosition], [setRootJointPosition],
    [addHandle], [addAxialHandle] and [addGripper] all raise the fault
    "Robot not found." and leave the session as it was. *)
Theorem robot_required (p : ProblemSolver) (pre linkName name : string)
    (pos : Transform_) (names : list string) (Hnone : robot p = None) :
  getRootJointPosition p pre = Raise (HppError "Robot not found.") /\
  setRootJointPosition p pre pos = (p, Raise (HppError "Robot not found.")) /\
  addHandle p linkName name pos = (p, Raise (HppError "Robot not found.")) /\
  addAxialHandle p linkName name pos = (p, Raise (HppError "Robot not found.")) /\
  addGripper p linkName name pos names = (p, Raise (HppError "Robot not found.")).
Proof.
  unfold getRootJointPosition, setRootJointPosition, addHandle, addAxialHandle,
    addGripper, getRobotOrThrow.
  rewrite Hnone. repeat split.
Qed.

Lemma robot_required_witness :
  addGripper ProblemSolver_create "pr2/base_link" "pr2/gripper" Samples.pose []
  = (ProblemSolver_create, Raise (HppError "Robot not found.")).
Proof.
  exact (proj2 (proj2 (proj2 (proj2
           (robot_required ProblemSolver_create "pr2" "pr2/base_link" "pr2/gripper"
              Samples.pose [] eq_refl))))).
Defined.

(** X12.  When the robot has no joint carrying the body [linkName],
    [addHandle], [addAxialHandle] and [addGripper] raise the fault
    "Joint not found." and register nothing: the session is as it was. *)
Theorem unknown_link_rejected (p : ProblemSolver) (r : Device)
    (linkName name : string) (pos : Transform_) (names : list string)
    (Hrobot : robot p = Some r)
    (Hlink : getJointByBodyName r linkName = None) :
  addHandle p linkName name pos = (p, Raise (HppError "Joint not found.")) /\
  addAxialHandle p linkName name pos = (p, Raise (HppError "Joint not found.")) /\
  addGripper p linkName name pos names = (p, Raise (HppError "Joint not found.")).
Proof.
  unfold addHandle, addAxialHandle, addGripper, getJointByBodyNameOrThrow,
    getRobotOrThrow.
  rewrite Hrobot, Hlink. repeat split.
Qed.

Lemma unknown_link_rejected_witness :
  addAxialHandle Samples.withPr2 "box/base_link" "box/handle" Samples.pose
  = (Samples.withPr2, Raise (HppError "Joint not found.")).
Proof.
  exact (proj1 (proj2
           (unknown_link_rejected Samples.withPr2 Samples.withPr2Robot
              "box/base_link" "box/handle" Samples.pose [] eq_refl eq_refl))).
Defined.

(** X13.  [addAxialHandle] behaves as [addHandle] in every respect but
    the kind of the handle it registers: both calls have the same
    result, and when they return normally the two sessions differ only
    by the entry [handleName] of the handle container, which holds
    handles with the same name, local position and joint, plain for
    [addHandle] and axial for [addAxialHandle]. *)
Theorem addAxialHandle_like_addHandle (p : ProblemSolver)
    (linkName handleName : string) (pos : Transform_) :
  snd (addAxialHandle p linkName handleName pos)
    = snd (addHandle p linkName handleName pos) /\
  (snd (addHandle p linkName handleName pos) = Return tt ->
   exists r j,
     robot p = Some r /\ getJointByBodyName r linkName = Some j /\
     fst (addHandle p linkName handleName pos)
       = set_robot
           (Device_add_handle handleName
              (mkHandle handleName (decodeTransform pos) j PlainHandle) r) p /\
     fst (addAxialHandle p linkName handleName pos)
       = set_robot
           (Device_add_handle handleName
              (mkHandle handleName (decodeTransform pos) j AxialHandle) r) p).
Proof.
  unfold addAxialHandle, addHandle, getJointByBodyNameOrThrow, getRobotOrThrow.
  destruct (robot p) as [r|]; simpl.
  - destruct (getJointByBodyName r linkName) as [j|] eqn:Hj; simpl.
    + split; [reflexivity |]. intros _. exists r, j. auto.
    + split; [reflexivity | discriminate].
  - split; [reflexivity | discriminate].
Qed.

Lemma addAxialHandle_like_addHandle_witness :
  exists r j,
    robot Samples.withPr2 = Some r /\
    getJointByBodyName r "pr2/base_link" = Some j /\
    fst (addAxialHandle Samples.withPr2 "pr2/base_link" "pr2/handle" Samples.pose)
      = set_robot
          (Device_add_handle "pr2/handle"
             (mkHandle "pr2/handle" (decodeTransform Samples.pose) j AxialHandle) r)
          Samples.withPr2.
Proof.
  destruct (proj2 (addAxialHandle_like_addHandle Samples.withPr2 "pr2/base_link"
                     "pr2/handle" Samples.pose) eq_refl)
    as (r & j & Hr & Hj & _ & Hax).
  exists r, j. auto.
Defined.

(** The robot of the session after a registering operation, whatever
    its outcome, has the joint tree it had. *)
Lemma registration_keeps_tree (p : ProblemSolver) (linkName : string)
    (k : Device -> JointPtr -> Device) :
  let q :=
    fst (match getRobotOrThrow p with
         | Raise e => (p, @Raise unit e)
         | Return robot =>
             match getJointByBodyNameOrThrow p linkName with
             | Raise e => (p, Raise e)
             | Return joint => (set_robot (k robot joint) p, Return tt)
             end
         end) in
  (forall r j, rootJoint (k r j) = rootJoint r) ->
  option_map rootJoint (robot q) = option_map rootJoint (robot p) /\
  obstacles q = obstacles p /\ contactSurfaces q = contactSurfaces p /\
  numericalConstraints q = numericalConstraints p /\ paths q = paths p /\
  resetCount q = resetCount p.
Proof.
  intros q Hk. subst q.
  unfold getJointByBodyNameOrThrow, getRobotOrThrow.
  destruct (robot p) as [r|] eqn:Hr; simpl; [| rewrite Hr; repeat split].
  destruct (getJointByBodyName r linkName) as [j|]; simpl.
  - rewrite Hk. repeat split.
  - rewrite Hr. repeat split.
Qed.

Lemma getRootJointPosition_tree (p q : ProblemSolver) (pre : string) :
  option_map rootJoint (robot q) = option_map rootJoint (robot p) ->
  getRootJointPosition q pre = getRootJointPosition p pre.
Proof.
  unfold getRootJointPosition, getRobotOrThrow.
  destruct (robot q) as [rq|], (robot p) as [rp|]; simpl;
    intros H; try discriminate; [| reflexivity].
  injection H as H. now rewrite H.
Qed.

(** X14.  Registering a handle or a gripper, successfully or not, never
    alters the joint tree, the obstacles, the constraints or the paths of
    the session and never resets the problem; hence
    [getRootJointPosition] returns the same thing before and after
    [addHandle], [addAxialHandle] or [addGripper].  Moreover handles do
    not disturb grippers, nor grippers handles. *)
Theorem registration_frame (p : ProblemSolver) (linkName name : string)
    (pos : Transform_) (names : list string) :
  let qh := fst (addHandle p linkName name pos) in
  let qa := fst (addAxialHandle p linkName name pos) in
  let qg := fst (addGripper p linkName name pos names) in
  (forall q, q = qh \/ q = qa \/ q = qg ->
     (forall pre, getRootJointPosition q pre = getRootJointPosition p pre) /\
     (forall n, option_map (fun r => getJointByBodyName r n) (robot q)
                = option_map (fun r => getJointByBodyName r n) (robot p)) /\
     obstacles q = obstacles p /\ numericalConstraints q = numericalConstraints p /\
     paths q = paths p /\ resetCount q = resetCount p) /\
  option_map grippers (robot qh) = option_map grippers (robot p) /\
  option_map grippers (robot qa) = option_map grippers (robot p) /\
  option_map handles (robot qg) = option_map handles (robot p).
Proof.
  intros qh qa qg.
  assert (Hh := registration_keeps_tree p linkName
                  (fun r j => Device_add_handle name
                     (Handle_create name (decodeTransform pos) j) r)).
  assert (Ha := registration_keeps_tree p linkName
                  (fun r j => Device_add_handle name
                     (AxialHandle_create name (decodeTransform pos) j) r)).
  assert (Hg := registration_keeps_tree p linkName
                  (fun r j => Device_add_gripper name
                     (Gripper_create name j (decodeTransform pos)
                        (resolveBodies r names)) r)).
  cbv zeta in Hh, Ha, Hg.
  specialize (Hh (fun _ _ => eq_refl)).
  specialize (Ha (fun _ _ => eq_refl)).
  specialize (Hg (fun _ _ => eq_refl)).
  change (fst _) with qh in Hh. change (fst _) with qa in Ha.
  change (fst _) with qg in Hg.
  split.
  - intros q Hq.
    assert (Hq' : option_map rootJoint (robot q) = option_map rootJoint (robot p) /\
                  obstacles q = obstacles p /\ contactSurfaces q = contactSurfaces p /\
                  numericalConstraints q = numericalConstraints p /\
                  paths q = paths p /\ resetCount q = resetCount p)
      by (destruct Hq as [-> | [-> | ->]]; assumption).
    destruct Hq' as (Ht & Ho & _ & Hc & Hp & Hr).
    split; [intros pre; now apply getRootJointPosition_tree |].
    split; [| auto].
    intros n. unfold getJointByBodyName.
    destruct (robot q) as [rq|], (robot p) as [rp|]; simpl in *;
      try discriminate; [| reflexivity].
    injection Ht as Ht. now rewrite Ht.
  - subst qh qa qg.
    unfold addHandle, addAxialHandle, addGripper, getJointByBodyNameOrThrow,
      getRobotOrThrow.
    destruct (robot p) as [r|] eqn:Hr; simpl; [| now rewrite Hr].
    destruct (getJointByBodyName r linkName) as [j|]; simpl;
      [repeat split | now rewrite Hr].
Qed.

Lemma registration_frame_witness :
  getRootJointPosition
    (fst (addGripper Samples.withPr2 "pr2/base_link" "pr2/gripper" Samples.pose []))
    "pr2"
  = getRootJointPosition Samples.withPr2 "pr2".
Proof.
  exact (proj1 (proj1 (registration_frame Samples.withPr2 "pr2/base_link"
                         "pr2/gripper" Samples.pose [])
                  _ (or_intror (or_intror eq_refl)))
           "pr2").
Defined.

(** X15.  The gripper registered by a successful [addGripper] is
    attached to the joint carrying [linkName] and has one entry of
    [jointInCollision] per entry of [bodyInCollisionNames], in the same
    order: entry [i] is what the name [i] resolves to in the robot, a
    joint or the null pointer. *)
Theorem addGripper_collision_entries (p q : ProblemSolver)
    (linkName gripperName : string) (pos : Transform_) (names : list string)
    (Hok : addGripper p linkName gripperName pos names = (q, Return tt)) :
  exists r r' j g,
    robot p = Some r /\ robot q = Some r' /\
    getJointByBodyName r linkName = Some j /\
    grippers r' !! gripperName = Some g /\
    Gripper_name g = gripperName /\ Gripper_joint g = j /\
    length (Gripper_jointInCollision g) = length names /\
    (forall i n, names !! i = Some n ->
       Gripper_jointInCollision g !! i = Some (getJointByBodyName r n)) /\
    (forall n, n <> gripperName -> grippers r' !! n = grippers r !! n).
Proof.
  unfold addGripper in Hok. apply guards_Return in Hok.
  destruct Hok as (r & j & Hr & Hj & [= <-]).
  eexists r, _, j, _.
  split; [exact Hr |]. split; [reflexivity |]. split; [exact Hj |].
  split; [simpl; apply lookup_insert_eq |].
  split; [reflexivity |]. split; [reflexivity |].
  split; [simpl; unfold resolveBodies; apply length_map |].
  split.
  - intros i n Hn. simpl. unfold resolveBodies.
    change (map (getJointByBodyName r) names)
      with (getJointByBodyName r <$> names).
    now rewrite list_lookup_fmap, Hn.
  - intros n Hn. simpl. now apply lookup_insert_ne.
Qed.

Lemma addGripper_collision_entries_witness :
  exists r r' j g,
    robot Samples.withPr2AndBox = Some r /\
    robot (fst (addGripper Samples.withPr2AndBox "pr2/base_link" "pr2/gripper"
                  Samples.pose ["box/base_link"])) = Some r' /\
    getJointByBodyName r "pr2/base_link" = Some j /\
    grippers r' !! "pr2/gripper" = Some g /\
    length (Gripper_jointInCollision g) = 1.
Proof.
  destruct (addGripper_collision_entries Samples.withPr2AndBox _ "pr2/base_link"
              "pr2/gripper" Samples.pose ["box/base_link"] eq_refl)
    as (r & r' & j & g & H1 & H2 & H3 & H4 & _ & _ & H5 & _).
  exists r, r', j, g. auto.
Defined.

(** X16.  Every fault that leaves the robot interface is an [hpp::Error]:
    whatever an operation raises, including what a parser threw, reaches
    the client as the remote fault, never as a bare C++ exception. *)
Theorem faults_are_hpp_errors (p : ProblemSolver) (e : exn) :
  (forall op load a, In op insertOperations ->
     snd (op load p a) = Raise e -> exists msg, e = HppError msg) /\
  (forall load package envModelName urdf srdf prefix,
     snd (loadEnvironmentModel load p package envModelName urdf srdf prefix)
       = Raise e -> exists msg, e = HppError msg) /\
  (forall pre, getRootJointPosition p pre = Raise e -> exists msg, e = HppError msg) /\
  (forall pre pos,
     snd (setRootJointPosition p pre pos) = Raise e -> exists msg, e = HppError msg) /\
  (forall linkName name pos,
     snd (addHandle p linkName name pos) = Raise e -> exists msg, e = HppError msg) /\
  (forall linkName name pos,
     snd (addAxialHandle p linkName name pos) = Raise e ->
     exists msg, e = HppError msg) /\
  (forall linkName name pos names,
     snd (addGripper p linkName name pos names) = Raise e ->
     exists msg, e = HppError msg).
Proof.
  assert (Hguards : forall linkName (k : Device -> JointPtr -> ProblemSolver),
    snd (match getRobotOrThrow p with
         | Raise e0 => (p, @Raise unit e0)
         | Return robot =>
             match getJointByBodyNameOrThrow p linkName with
             | Raise e0 => (p, Raise e0)
             | Return joint => (k robot joint, Return tt)
             end
         end) = Raise e -> exists msg, e = HppError msg).
  { intros linkName k. unfold getJointByBodyNameOrThrow, getRobotOrThrow.
    destruct (robot p) as [r|]; simpl.
    - destruct (getJointByBodyName r linkName) as [j|]; simpl.
      + discriminate.
      + intros [= <-]. eauto.
    - intros [= <-]. eauto. }
  repeat split.
  - intros op load a Hop. rewrite (insertOperations_insertModel op Hop).
    unfold insertModel. destruct (getOrCreateRobot p) as [p1 r].
    destruct (load r [] a) as [r' [what|]]; simpl.
    + intros [= <-]. eauto.
    + discriminate.
  - intros load package envModelName urdf srdf prefix. unfold loadEnvironmentModel.
    destruct (load package envModelName urdf srdf) as [object [what|]]; simpl.
    + intros [= <-]. eauto.
    + discriminate.
  - intros pre. unfold getRootJointPosition, getRobotOrThrow.
    destruct (robot p) as [r|]; [| intros [= <-]; eauto].
    destruct (findChild pre 0 _) as [i|]; [| intros [= <-]; eauto].
    destruct (_ !! i); [discriminate | intros [= <-]; eauto].
  - intros pre pos. unfold setRootJointPosition, getRobotOrThrow.
    destruct (robot p) as [r|]; [| intros [= <-]; eauto].
    destruct (findChild pre 0 _) as [i|]; [discriminate | intros [= <-]; eauto].
  - intros linkName name pos. apply Hguards.
  - intros linkName name pos. apply Hguards.
  - intros linkName name pos names. apply Hguards.
Qed.

Lemma faults_are_hpp_errors_witness :
  exists msg, HppError "Unable to find the model file" = HppError msg.
Proof.
  assert (Hop : In insertRobotModel insertOperations) by (simpl; auto).
  exact (proj1 (faults_are_hpp_errors ProblemSolver_create
                  (HppError "Unable to find the model file"))
           insertRobotModel Samples.loadNothing Samples.pr2 Hop eq_refl).
Defined.

(** * Further properties of the entry point *)

Lemma startup_started (flags : Flags) (initialName : string) :
  started (startup flags initialName)
  = ([(CorbaServer, [])]
     ++ (if HPP_MANIPULATION_HAS_WHOLEBODY_STEP flags
         then [(WholebodyStepServer, ["hpp"; "corbaserver"; "wholebodyStep"; "problem"])]
         else [])
     ++ (if HPP_MANIPULATION_HAS_RBPRM flags
         then [(RbprmServer, ["hpp"; "corbaserver"; "rbprm"])]
         else [])
     ++ [(ManipulationServer, ["hpp"; "corbaserver"; "manipulation"])])%list.
Proof. destruct flags as [[|] [|]]; reflexivity. Qed.

Lemma startup_all_bindings (flags : Flags) (initialName : string) :
  bindings (startup flags initialName)
  = ([(CorbaServer, ToProblemSolverMap); (ManipulationServer, ToProblemSolverMap)]
     ++ (if HPP_MANIPULATION_HAS_WHOLEBODY_STEP flags
         then [(WholebodyStepServer, ToProblemSolverMap)]
         else [])
     ++ (if HPP_MANIPULATION_HAS_RBPRM flags
         then [(RbprmServer, ToProblemSolver 1)]
         else []))%list.
Proof. destruct flags as [[|] [|]]; reflexivity. Qed.

(** X17.  Whatever the feature flags, [main] starts exactly the server
    modules it has bound, each once and before the request loop: the
    core server first, the manipulation server last under
    hpp/corbaserver/manipulation, and in between the wholebodyStep and
    RBPRM servers exactly when their flags are set.  Only the RBPRM
    server is bound to a session of its own; the others resolve theirs
    through the registry. *)
Theorem startup_modules (flags : Flags) (initialName : string) :
  let pr := startup flags initialName in
  let servers := map fst (started pr) in
  (forall s, is_Some (binding s pr) <-> In s servers) /\
  List.NoDup servers /\
  (In WholebodyStepServer servers <-> HPP_MANIPULATION_HAS_WHOLEBODY_STEP flags = true) /\
  (In RbprmServer servers <-> HPP_MANIPULATION_HAS_RBPRM flags = true) /\
  head (started pr) = Some (CorbaServer, []) /\
  last (started pr) = Some (ManipulationServer, ["hpp"; "corbaserver"; "manipulation"]) /\
  (forall s, s <> RbprmServer -> In s servers ->
             binding s pr = Some ToProblemSolverMap) /\
  processingRequests pr = false.
Proof.
  intros pr servers. subst servers.
  assert (Hproc : processingRequests pr = false)
    by (subst pr; destruct flags as [[|] [|]]; reflexivity).
  unfold binding. subst pr.
  rewrite startup_started, startup_all_bindings.
  destruct flags as [[|] [|]]; simpl.
  all: split; [intros s; destruct s; cbv; split; intros H;
                 first [ (destruct H as [x H]; discriminate H)
                       | solve [intuition (first [discriminate | eauto])] ] |].
  all: split; [repeat constructor; simpl; intuition discriminate |].
  all: split; [split; intros H; first [reflexivity | tauto | discriminate H |
                                       (exfalso; intuition discriminate)] |].
  all: split; [split; intros H; first [reflexivity | tauto | discriminate H |
                                       (exfalso; intuition discriminate)] |].
  all: split; [reflexivity |]. all: split; [reflexivity |].
  all: split; [| exact Hproc].
  all: intros s Hs Hin; destruct s; cbv;
    first [reflexivity | congruence | (exfalso; cbv in Hin; intuition discriminate)].
Qed.

Lemma startup_problemSolverMap_plain (wbs : bool) (initialName : string) :
  problemSolverMap (startup (mkFlags wbs false) initialName)
  = mkProblemSolverMap [ProblemSolver_create] (<[initialName := 0]> ∅) (Some 0).
Proof. destruct wbs; reflexivity. Qed.

(** X18.  For every choice of flags and of initial name, the registry
    [main] serves requests from is well formed: every registered name
    designates an allocated session, the selected session is the
    initial one and is empty, as is every other session.  The
    wholebodyStep flag has no effect on the registry, and without the
    RBPRM flag the registry holds the initial session alone and no
    server is bound to a session directly. *)
Theorem startup_registry (flags : Flags) (initialName : string) :
  let pr := startup flags initialName in
  let m := problemSolverMap pr in
  (forall name ptr, map_ m !! name = Some ptr -> is_Some (sessions m !! ptr)) /\
  (selected m = Some 0 /\ current m = Some ProblemSolver_create) /\
  (forall i s, sessions m !! i = Some s -> s = ProblemSolver_create) /\
  problemSolverMap (main flags initialName) = m /\
  (forall wbs,
     problemSolverMap
       (startup (mkFlags wbs (HPP_MANIPULATION_HAS_RBPRM flags)) initialName) = m) /\
  (HPP_MANIPULATION_HAS_RBPRM flags = false ->
     sessions m = [ProblemSolver_create] /\ map_ m = {[ initialName := 0 ]} /\
     forall s ptr, binding s pr <> Some (ToProblemSolver ptr)).
Proof.
  intros pr m. subst pr m.
  destruct flags as [wbs [|]]; simpl HPP_MANIPULATION_HAS_RBPRM.
  - rewrite startup_problemSolverMap.
    split; [| split; [| split; [| split; [| split]]]].
    + intros name ptr. simpl.
      destruct (decide ("rbprm" = name)) as [<- | Hne].
      * rewrite lookup_insert_eq. intros [= <-]. now eexists.
      * rewrite lookup_insert_ne by exact Hne.
        destruct (decide (initialName = name)) as [<- | Hne'].
        -- rewrite lookup_insert_eq. intros [= <-]. now eexists.
        -- rewrite lookup_insert_ne by exact Hne'. rewrite lookup_empty.
           discriminate.
    + split; reflexivity.
    + intros [|[|i]] s; simpl; intros H; try (now inversion H).
    + change (problemSolverMap (main (mkFlags wbs true) initialName))
        with (problemSolverMap (startup (mkFlags wbs true) initialName)).
      apply startup_problemSolverMap.
    + intros wbs'. apply startup_problemSolverMap.
    + discriminate.
  - rewrite startup_problemSolverMap_plain.
    split; [| split; [| split; [| split; [| split]]]].
    + intros name ptr. simpl.
      destruct (decide (initialName = name)) as [<- | Hne'].
      * rewrite lookup_insert_eq. intros [= <-]. now eexists.
      * rewrite lookup_insert_ne by exact Hne'. rewrite lookup_empty.
        discriminate.
    + split; reflexivity.
    + intros [|i] s; simpl; intros H; try (now inversion H).
    + change (problemSolverMap (main (mkFlags wbs false) initialName))
        with (problemSolverMap (startup (mkFlags wbs false) initialName)).
      apply startup_problemSolverMap_plain.
    + intros wbs'. apply startup_problemSolverMap_plain.
    + intros _. split; [reflexivity |]. split; [reflexivity |].
      intros s ptr. unfold binding. rewrite startup_all_bindings.
      destruct wbs, s; cbv; discriminate.
Qed.

Lemma startup_registry_witness :
  sessions (problemSolverMap (startup (mkFlags true false) "default"))
  = [ProblemSolver_create].
Proof.
  exact (proj1 (proj2 (proj2 (proj2 (proj2 (proj2
           (startup_registry (mkFlags true false) "default"))))) eq_refl)).
Defined.

(** * Further properties of model loading *)

(** X19.  Once an insert operation has been called on a session,
    whether its parser succeeded or threw, the session has a robot:
    none of the operations that need one raises "Robot not found."
    afterwards. *)
Theorem robot_present_after_insert
    (op : ModelLoader -> ProblemSolver -> ModelArgs -> ProblemSolver * result unit)
    (load : ModelLoader) (p : ProblemSolver) (a : ModelArgs)
    (Hop : In op insertOperations) :
  let q := fst (op load p a) in
  let notFound := Raise (HppError "Robot not found.") in
  is_Some (robot q) /\
  (forall pre, getRootJointPosition q pre <> Raise (HppError "Robot not found.")) /\
  (forall pre pos, snd (setRootJointPosition q pre pos) <> notFound) /\
  (forall linkName name pos, snd (addHandle q linkName name pos) <> notFound) /\
  (forall linkName name pos, snd (addAxialHandle q linkName name pos) <> notFound) /\
  (forall linkName name pos names,
     snd (addGripper q linkName name pos names) <> notFound).
Proof.
  intros q notFound. subst q notFound.
  rewrite (insertOperations_insertModel op Hop).
  pose proof (insertModel_robot load p a) as Hr.
  set (q := fst (insertModel load p a)) in *.
  set (r := fst (load (snd (getOrCreateRobot p)) [] a)) in *.
  split; [now exists r |].
  unfold getRootJointPosition, setRootJointPosition, addHandle, addAxialHandle,
    addGripper, getJointByBodyNameOrThrow, getRobotOrThrow.
  rewrite Hr.
  split; [| split; [| split; [| split]]].
  - intros pre. destruct (findChild pre 0 _) as [i|]; [| discriminate].
    destruct (_ !! i); discriminate.
  - intros pre pos. destruct (findChild pre 0 _) as [i|]; discriminate.
  - intros linkName name pos.
    destruct (getJointByBodyName r linkName); discriminate.
  - intros linkName name pos.
    destruct (getJointByBodyName r linkName); discriminate.
  - intros linkName name pos names.
    destruct (getJointByBodyName r linkName); discriminate.
Qed.

Lemma robot_present_after_insert_witness :
  snd (addHandle Samples.afterFailedLoad "pr2/base_link" "pr2/handle" Samples.pose)
  <> Raise (HppError "Robot not found.").
Proof.
  assert (Hop : In insertRobotModel insertOperations) by (simpl; auto).
  exact (proj1 (proj2 (proj2 (proj2
           (robot_present_after_insert insertRobotModel Samples.loadNothing
              ProblemSolver_create Samples.pr2 Hop))))
           "pr2/base_link" "pr2/handle" Samples.pose).
Defined.

(** X20.  Models accumulate on one device: when two insert operations
    follow each other on a session, the parser of the second works on
    the device the parser of the first left, so the robot of the
    session is the result of the two parsers applied in turn to the
    robot the session had, or to the freshly created one. *)
Theorem insert_operations_accumulate
    (op1 op2 : ModelLoader -> ProblemSolver -> ModelArgs -> ProblemSolver * result unit)
    (load1 load2 : ModelLoader) (p : ProblemSolver) (a1 a2 : ModelArgs)
    (Hop1 : In op1 insertOperations) (Hop2 : In op2 insertOperations) :
  let r0 := snd (getOrCreateRobot p) in
  let r1 := fst (load1 r0 [] a1) in
  let r2 := fst (load2 r1 [] a2) in
  robot (fst (op1 load1 p a1)) = Some r1 /\
  robot (fst (op2 load2 (fst (op1 load1 p a1)) a2)) = Some r2.
Proof.
  intros r0 r1 r2. subst r0 r1 r2.
  rewrite (insertOperations_insertModel op1 Hop1),
    (insertOperations_insertModel op2 Hop2).
  pose proof (insertModel_robot load1 p a1) as H1.
  split; [exact H1 |].
  rewrite insertModel_robot.
  now rewrite (getOrCreateRobot_present _ _ H1).
Qed.

Lemma insert_operations_accumulate_witness :
  robot Samples.withPr2AndBox = Some Samples.withPr2AndBoxRobot.
Proof.
  assert (Hop1 : In insertRobotModel insertOperations) by (simpl; auto).
  assert (Hop2 : In insertObjectModel insertOperations) by (simpl; auto).
  exact (proj2 (insert_operations_accumulate insertRobotModel insertObjectModel
                  Samples.loadOneLink Samples.loadOneLink ProblemSolver_create
                  Samples.pr2 Samples.box Hop1 Hop2)).
Defined.
